(** * edge-tts2openAPI: the streaming text-to-speech endpoint

    A shallow embedding of [src/edge-tts2openAPI.py]:
    - the request model [TTSParameters] and the table [MODEL_CONFIG];
    - the coroutine [write_audio] (the task feeding the filter's input);
    - the asynchronous generator [generate_edge_audio];
    - the endpoint [create_speech].

    Python floats are IEEE binary64 numbers, taken from the Standard
    Library's [SpecFloat]; strings are byte strings; the asynchronous code
    is written in a small trace monad: a computation yields the list of
    effects it performed, in order, and how it ended (returned, raised, or
    suspended for ever at an [await]).  A task created with
    [asyncio.create_task] runs beside its creator: its creation is an
    effect of the creator, which records the coroutine, and what the task
    has performed is read off that record.  Everything outside the program
    (the voice catalogue, the provider's stream, the filter process, the
    consumer of the response, the moments at which the request is cancelled
    and at which the writer task is found by its cancellation) is a
    [World], over which the theorems quantify. *)

From Stdlib Require Import ZArith String Ascii List Bool Lia.
From Stdlib Require Import SpecFloat DecimalString.
Import ListNotations.

Set Warnings "-notation-for-abbreviation,-register-all".

Local Open Scope string_scope.
Local Open Scope Z_scope.
Local Open Scope list_scope.

(** ** Python floats *)

Module F64.

Definition prec : Z := 53.
Definition emax : Z := 1024.

Definition float : Type := spec_float.

(** [float(z)] for an integer that converts exactly or by rounding to nearest. *)
Definition of_Z (z : Z) : float := binary_normalize prec emax z 0 false.

Definition sub (x y : float) : float := SFsub prec emax x y.
Definition mul (x y : float) : float := SFmul prec emax x y.
Definition div (x y : float) : float := SFdiv prec emax x y.
Definition eqb (x y : float) : bool := SFeqb x y.
Definition ltb (x y : float) : bool := SFltb x y.
Definition leb (x y : float) : bool := SFleb x y.

(** The literal [num/den] written in decimal in the source text or in a JSON
    body: the binary64 number nearest to the quotient. *)
Definition lit (num den : Z) : float := div (of_Z num) (of_Z den).

(** [x != y] *)
Definition neb (x y : float) : bool := negb (eqb x y).

(** [int(x)]: truncation toward zero; [None] where Python raises
    (ValueError on a NaN, OverflowError on an infinity). *)
Definition to_int (x : float) : option Z :=
  match x with
  | S754_zero _ => Some 0
  | S754_finite s m e => Some (cond_Zopp s (Z.shiftl (Zpos m) e))
  | S754_infinity _ => None
  | S754_nan => None
  end.

(** The built-ins [min(a, b)] and [max(a, b)]: the first argument is kept
    unless the second is strictly smaller (resp. greater). *)
Definition min (a b : float) : float := if ltb b a then b else a.
Definition max (a b : float) : float := if ltb a b then b else a.

End F64.

(** ** Python strings and dictionaries *)

Definition bytes : Type := list Byte.byte.

(** [str(n)] for an integer. *)
Definition str_int (n : Z) : string := NilZero.string_of_int (Z.to_int n).

Definition lower_ascii (c : ascii) : ascii :=
  let n := nat_of_ascii c in
  if (Nat.leb 65 n && Nat.leb n 90)%bool then ascii_of_nat (n + 32) else c.

(** [s.lower()], on the ASCII letters. *)
Fixpoint lower (s : string) : string :=
  match s with
  | EmptyString => EmptyString
  | String c r => String (lower_ascii c) (lower r)
  end.

(** [d.get(k)] on a dictionary with string keys. *)
Fixpoint dict_get {V : Type} (d : list (string * V)) (k : string) : option V :=
  match d with
  | [] => None
  | (k', v) :: r => if String.eqb k k' then Some v else dict_get r k
  end.

(** [k in d] *)
Definition dict_mem {V : Type} (d : list (string * V)) (k : string) : bool :=
  match dict_get d k with Some _ => true | None => false end.

(** [x in l] for a list of strings; [x] may be [None]. *)
Definition opt_str_in (x : option string) (l : list string) : bool :=
  match x with
  | Some s => existsb (String.eqb s) l
  | None => false
  end.

(** [str(x)] for an optional string. *)
Definition str_opt (x : option string) : string :=
  match x with Some s => s | None => "None" end.

(** [needle in haystack] for strings. *)
Fixpoint contains (needle haystack : string) : bool :=
  if String.prefix needle haystack then true
  else match haystack with
       | EmptyString => false
       | String _ r => contains needle r
       end.

(** ** The request model and the model table *)

(** [class TTSParameters(BaseModel)]; the three [Optional] fields accept
    [null]. *)
Record TTSParameters : Type := {
  model : string;
  input : string;
  voice : string;
  response_format : option string;
  speed : option F64.float;
  volume : option F64.float
}.

Definition in_range (lo hi : F64.float) (x : option F64.float) : bool :=
  match x with
  | None => true
  | Some v => (F64.leb lo v && F64.leb v hi)%bool
  end.

(** The constraints [Field(1.0, ge=0.5, le=2.0)] and [Field(1.0, ge=0.5,
    le=3.0)] that a request body satisfies when the endpoint is entered. *)
Definition well_formed (p : TTSParameters) : bool :=
  (in_range (F64.lit 5 10) (F64.of_Z 2) (speed p)
   && in_range (F64.lit 5 10) (F64.of_Z 3) (volume p))%bool.

Record ModelConfig : Type := {
  quality : string;
  allowed_formats : list string;
  voice_map : list (string * string)
}.

Definition MODEL_CONFIG : list (string * ModelConfig) :=
  [ ("tts-1",
     {| quality := "standard";
        allowed_formats := ["mp3"];
        voice_map := [ ("alloy", "en-US-GuyNeural");
                       ("echo", "en-US-JennyNeural");
                       ("nova", "zh-CN-YunxiNeural") ] |});
    ("tts-1-hd",
     {| quality := "enhanced";
        allowed_formats := ["mp3"];
        voice_map := [ ("alloy", "en-US-AriaNeural");
                       ("echo", "en-US-DavisNeural");
                       ("nova", "zh-CN-YunjianNeural") ] |}) ].

(** ** Exceptions *)

Inductive Exn : Type :=
| HTTPException (status_code : Z) (detail : string)
| ValueError (msg : string)
| TypeError (msg : string)
| OverflowError (msg : string)
| OtherException (name msg : string)
| CancelledError
| GeneratorExit.

(** [isinstance(e, Exception)]: [asyncio.CancelledError] and [GeneratorExit]
    derive from [BaseException] only. *)
Definition is_Exception (e : Exn) : bool :=
  match e with
  | CancelledError | GeneratorExit => false
  | _ => true
  end.

Definition is_HTTPException (e : Exn) : bool :=
  match e with HTTPException _ _ => true | _ => false end.

Definition is_CancelledError (e : Exn) : bool :=
  match e with CancelledError => true | _ => false end.

(** [str(e)] *)
Definition str_exn (e : Exn) : string :=
  match e with
  | HTTPException c d => str_int c ++ ": " ++ d
  | ValueError m | TypeError m | OverflowError m | OtherException _ m => m
  | CancelledError | GeneratorExit => ""
  end.

(** ** Effects

    The effects a task performs, in the order it performs them. *)

Inductive Redirect : Type := PIPE | DEVNULL | INHERIT.

(** How a computation ends: it returns, it raises, or it stays suspended at
    an [await] that never completes. *)
Inductive Outcome (A : Type) : Type :=
| Ret (a : A)
| Exc (e : Exn)
| Blocked.

Arguments Ret {A} a.
Arguments Exc {A} e.
Arguments Blocked {A}.

(** [asyncio.create_task(coro)] is recorded with the coroutine it is handed,
    given as the run the coroutine makes when nothing cancels it: the
    effects it performs and how it ends.  The task runs beside its creator;
    its effects are not part of its creator's. *)
Inductive Event : Type :=
| ListVoices                                      (* edge_tts.list_voices() *)
| NewCommunicate (text voice rate : string)       (* edge_tts.Communicate(..) *)
| StreamNext                                      (* one step of communicate.stream() *)
| SubprocessExec (cmd : list string) (stdin stdout stderr : Redirect)
| CreateTask (coro : list Event * Outcome unit)   (* asyncio.create_task(coro) *)
| StdoutRead (n : Z)                              (* proc.stdout.read(n) *)
| Yield (chunk : bytes)                           (* yield chunk *)
| StdinWrite (data : bytes)                       (* stdin.write(data) *)
| StdinDrain                                      (* stdin.drain() *)
| StdinClose                                      (* stdin.close() *)
| StdinWaitClosed                                 (* stdin.wait_closed() *)
| ProcWait                                        (* proc.wait() *)
| ProcKill                                        (* proc.kill(), proc.terminate() *)
| TaskCancel                                      (* writer_task.cancel() *)
| TaskAwait                                       (* await writer_task *)
| LogError (msg : string).                        (* logger.error(msg) *)

Definition M (A : Type) : Type := (list Event * Outcome A)%type.

Definition ret {A : Type} (a : A) : M A := ([], Ret a).
Definition raise {A : Type} (e : Exn) : M A := ([], Exc e).
Definition blocked {A : Type} : M A := ([], Blocked).
Definition emit (ev : Event) : M unit := ([ev], Ret tt).

Definition bind {A B : Type} (m : M A) (k : A -> M B) : M B :=
  match m with
  | (t, Ret a) => let (t', o) := k a in (t ++ t', o)
  | (t, Exc e) => (t, Exc e)
  | (t, Blocked) => (t, Blocked)
  end.

Declare Scope py_scope.
Delimit Scope py_scope with py.
Notation "x <- m ;; k" := (bind m (fun x => k))
  (at level 61, m at next level, right associativity) : py_scope.
Notation "m ;; k" := (bind m (fun _ => k))
  (at level 61, right associativity) : py_scope.
Local Open Scope py_scope.

(** The result of a call that either raises or returns. *)
Definition lift {A : Type} (r : Exn + A) : M A :=
  match r with
  | inl e => raise e
  | inr a => ret a
  end.

(** [try: body / except C as e: handler e], where [C] is the class test
    [catches]. *)
Definition try_except {A : Type} (body : M A) (catches : Exn -> bool)
    (handler : Exn -> M A) : M A :=
  match body with
  | (t, Exc e) =>
      if catches e then let (t', o) := handler e in (t ++ t', o)
      else (t, Exc e)
  | r => r
  end.

(** [try: body / finally: final].  A body suspended for ever never reaches
    its [finally] clause. *)
Definition try_finally {A : Type} (body : M A) (final : M unit) : M A :=
  match body with
  | (t, Blocked) => (t, Blocked)
  | (t, o) =>
      match final with
      | (t', Ret _) => (t ++ t', o)
      | (t', Exc e') => (t ++ t', Exc e')
      | (t', Blocked) => (t ++ t', Blocked)
      end
  end.

Definition trace {A : Type} (m : M A) : list Event := fst m.
Definition outcome {A : Type} (m : M A) : Outcome A := snd m.

Definition never_blocks {A : Type} (m : M A) : Prop := outcome m <> Blocked.

(** The chunks handed to the consumer, in order. *)
Fixpoint yielded (t : list Event) : list bytes :=
  match t with
  | [] => []
  | Yield c :: r => c :: yielded r
  | _ :: r => yielded r
  end.

Definition is_spawn (ev : Event) : bool :=
  match ev with SubprocessExec _ _ _ _ => true | _ => false end.

Definition is_kill (ev : Event) : bool :=
  match ev with ProcKill => true | _ => false end.

(** The events of the read loop of the filtered path. *)
Definition is_loop_event (ev : Event) : bool :=
  match ev with StdoutRead _ | Yield _ => true | _ => false end.

(** The calls that reach the synthesis provider. *)
Definition is_provider_call (ev : Event) : bool :=
  match ev with ListVoices | NewCommunicate _ _ _ | StreamNext => true | _ => false end.

(** ** The world around the program *)

(** One item of [communicate.stream()]: [chunk["type"]] and [chunk["data"]]. *)
Record Chunk : Type := { ctype : string; cdata : bytes }.

(** What iterating [communicate.stream()] gives: the chunks, and then either
    exhaustion ([None]) or an exception raised by the pending step. *)
Record Stream : Type := { chunks : list Chunk; ending : option Exn }.

(** The writing end of the filter's input: whether the [k]-th [drain()]
    raises, and whether [wait_closed()] does. *)
Record StdinPipe : Type := {
  drain : nat -> option Exn;
  wait_closed : option Exn
}.

(** The result of one [proc.stdout.read(4096)]. *)
Inductive ReadResult : Type :=
| ReadBytes (b : bytes)
| ReadRaises (e : Exn).

(** What [await proc.wait()] comes to: the process exits and the wait
    returns; the process does not exit and the wait stays pending; or the
    waiting task is resumed by an exception, its cancellation, while the
    process has not exited. *)
Inductive WaitResult : Type :=
| Exited
| NeverExits
| WaitRaises (e : Exn).

(** The filter process as the operating system runs it: its input pipe, the
    successive results of reading its output (the read after the last one
    listed never completes), and what waiting for its exit comes to. *)
Record Filter : Type := {
  f_stdin : StdinPipe;
  f_stdout : list ReadResult;
  f_wait : WaitResult
}.

(** An entry of the provider's voice catalogue. *)
Record VoiceInfo : Type := { ShortName : string }.

Record World : Type := {
  list_voices : Exn + list VoiceInfo;
  Communicate : string -> string -> string -> Exn + Stream;
  spawn : list string -> Exn + Filter;
  (* the consumer closes the generator while it is suspended at its
     [closes_at]-th [yield] (counted from 0); [None]: it reads to the end *)
  closes_at : option nat;
  (* where [writer_task.cancel()] finds the writer task: suspended at its
     [cancel_finds]-th [await] (counted from 0); [None]: it has finished *)
  cancel_finds : option nat;
  (* the exception, a cancellation of the request's task, that resumes the
     generator while it is suspended at [await writer_task], if any *)
  join_raises : option Exn
}.

(** ** The writer task: [write_audio] *)

(** [await stdin.drain()], for the [k]-th write. *)
Definition await_drain (stdin : StdinPipe) (k : nat) : M unit :=
  emit StdinDrain ;;
  match drain stdin k with
  | Some e => raise e
  | None => ret tt
  end.

(** Lines 58-61: the body of [async for chunk in communicate.stream()], on
    the chunks the stream delivers; a chunk is written when
    [chunk["type"] == "audio" and stdin is not None]; [k] counts the writes
    done so far. *)
Fixpoint write_chunks (stdin : option StdinPipe) (cs : list Chunk) (k : nat)
    : M unit :=
  match cs with
  | [] => ret tt
  | chunk :: rest =>
      emit StreamNext ;;
      match stdin with
      | Some pipe =>
          if String.eqb (ctype chunk) "audio" then
            emit (StdinWrite (cdata chunk)) ;;
            await_drain pipe k ;;
            write_chunks stdin rest (S k)
          else write_chunks stdin rest k
      | None => write_chunks stdin rest k
      end
  end.

(** The step of the stream that follows its last chunk: exhaustion, or the
    exception the stream ends with. *)
Definition stream_end (communicate : Stream) : M unit :=
  emit StreamNext ;;
  match ending communicate with
  | Some e => raise e
  | None => ret tt
  end.

(** Lines 58-64: the [try] block of [write_audio]. *)
Definition write_audio_body (communicate : Stream) (stdin : option StdinPipe)
    : M unit :=
  write_chunks stdin (chunks communicate) 0 ;;
  stream_end communicate ;;
  match stdin with
  | Some pipe =>
      emit StdinClose ;;
      emit StdinWaitClosed ;;
      match wait_closed pipe with
      | Some e => raise e
      | None => ret tt
      end
  | None => ret tt
  end.

(** Lines 55-66: [except Exception as e: logger.error(..)] around it. *)
Definition write_audio (communicate : Stream) (stdin : option StdinPipe)
    : M unit :=
  try_except
    (write_audio_body communicate stdin)
    is_Exception
    (fun e => emit (LogError ("写入音频失败: " ++ str_exn e))).

(** ** The generator: [generate_edge_audio] *)

(** [asyncio.create_subprocess_exec]'s process object: [proc.stdin] and
    [proc.stdout] exist for the channels opened with [PIPE]. *)
Record Process : Type := {
  stdin : option StdinPipe;
  stdout : option (list ReadResult);
  wait : WaitResult
}.

Definition create_subprocess_exec (W : World) (cmd : list string)
    (i o e : Redirect) : M Process :=
  emit (SubprocessExec cmd i o e) ;;
  f <- lift (spawn W cmd) ;;
  ret {| stdin := match i with PIPE => Some (f_stdin f) | _ => None end;
         stdout := match o with PIPE => Some (f_stdout f) | _ => None end;
         wait := f_wait f |}.

(** [real_voice = config["voice_map"].get(voice.lower(), voice)] *)
Definition real_voice (config : ModelConfig) (voice : string) : string :=
  match dict_get (voice_map config) (lower voice) with
  | Some v => v
  | None => voice
  end.

(** [any(v["ShortName"] == name for v in all_voices)] *)
Definition known_voice (all_voices : list VoiceInfo) (name : string) : bool :=
  existsb (fun v => String.eqb (ShortName v) name) all_voices.

(** [yield chunk], the [i]-th of the generator. *)
Definition yield_ (W : World) (i : nat) (chunk : bytes) : M unit :=
  emit (Yield chunk) ;;
  match closes_at W with
  | Some n => if Nat.eqb n i then raise GeneratorExit else ret tt
  | None => ret tt
  end.

(** Lines 92-93: [speed = max(0.8, min(speed, 1.5))] when the quality is
    "enhanced". *)
Definition clamp_speed (config : ModelConfig) (speed : option F64.float)
    : Exn + option F64.float :=
  if String.eqb (quality config) "enhanced" then
    match speed with
    | Some s => inr (Some (F64.max (F64.lit 8 10) (F64.min s (F64.lit 15 10))))
    | None =>
        inl (TypeError
               "'<' not supported between instances of 'float' and 'NoneType'")
    end
  else inr speed.

(** [(speed - 1) * 100] *)
Definition scaled (s : F64.float) : F64.float :=
  F64.mul (F64.sub s (F64.of_Z 1)) (F64.of_Z 100).

(** [int((speed - 1) * 100)] *)
Definition percent (s : F64.float) : option Z := F64.to_int (scaled s).

(** What [int(x)] raises on a float that is not finite. *)
Definition int_error (x : F64.float) : Exn :=
  match x with
  | S754_nan => ValueError "cannot convert float NaN to integer"
  | _ => OverflowError "cannot convert float infinity to integer"
  end.

(** Line 95:
    [rate = f"+{int((speed - 1) * 100)}%" if speed != 1.0 else "+0%"] *)
Definition rate_of (speed : option F64.float) : Exn + string :=
  match speed with
  | Some s =>
      if F64.neb s (F64.of_Z 1) then
        match percent s with
        | Some n => inr ("+" ++ str_int n ++ "%")%string
        | None => inl (int_error (scaled s))
        end
      else inr "+0%"
  | None =>
      inl (TypeError "unsupported operand type(s) for -: 'NoneType' and 'int'")
  end.

(** [volume != 1.0] *)
Definition needs_filter (volume : option F64.float) : bool :=
  match volume with
  | Some v => F64.neb v (F64.of_Z 1)
  | None => true
  end.

(** Lines 124-128: the loop reading the filter's output, from the [i]-th
    [yield] on; an empty read ends it. *)
Fixpoint read_loop (W : World) (reads : list ReadResult) (i : nat) : M unit :=
  match reads with
  | [] => emit (StdoutRead 4096) ;; blocked
  | ReadRaises e :: _ => emit (StdoutRead 4096) ;; raise e
  | ReadBytes chunk :: rest =>
      emit (StdoutRead 4096) ;;
      match chunk with
      | [] => ret tt
      | _ => yield_ W i chunk ;; read_loop W rest (S i)
      end
  end.

(** The effects at which a coroutine may be suspended: its [await]s. *)
Definition is_await (ev : Event) : bool :=
  match ev with
  | ListVoices | StreamNext | SubprocessExec _ _ _ _ | StdoutRead _
  | StdinDrain | StdinWaitClosed | ProcWait | TaskAwait => true
  | _ => false
  end.

(** What a coroutine whose whole run is [t] has performed when it is
    suspended at its [k]-th [await] (counted from 0); [None] when [t] has
    no such [await]. *)
Fixpoint upto_await (k : nat) (t : list Event) : option (list Event) :=
  match t with
  | [] => None
  | ev :: r =>
      if is_await ev then
        match k with
        | O => Some [ev]
        | S k' => option_map (cons ev) (upto_await k' r)
        end
      else option_map (cons ev) (upto_await k r)
  end.

(** The state in which [writer_task.cancel()] finds the task: suspended,
    having performed the effects given, or ([None]) finished. *)
Definition suspended (W : World) (writer_task : M unit) : option (list Event) :=
  match cancel_finds W with
  | Some k => upto_await k (trace writer_task)
  | None => None
  end.

(** [writer_task.cancel()]: a task that has finished is left as it is; a
    suspended one is resumed by [CancelledError] at its [await], and
    [write_audio], whose handler is for [Exception], ends with it. *)
Definition cancelled (W : World) (writer_task : M unit) : M unit :=
  match suspended W writer_task with
  | Some t => (t, Exc CancelledError)
  | None => writer_task
  end.

(** [await proc.wait()] *)
Definition await_wait (proc : Process) : M unit :=
  emit ProcWait ;;
  match wait proc with
  | Exited => ret tt
  | NeverExits => blocked
  | WaitRaises e => raise e
  end.

(** [await writer_task], after [writer_task.cancel()]: the result of a
    finished task is returned or raised at once; for a task that was
    suspended the generator is suspended in turn, and is resumed by the
    task's [CancelledError], or by the cancellation of its own task. *)
Definition await_task (W : World) (writer_task : M unit) : M unit :=
  emit TaskAwait ;;
  match suspended W writer_task with
  | Some _ =>
      match join_raises W with
      | Some e => raise e
      | None => raise CancelledError
      end
  | None => ([], outcome writer_task)
  end.

(** What [try: await writer_task / except asyncio.CancelledError: pass]
    makes of the task's result. *)
Definition joined (o : Outcome unit) : Outcome unit :=
  match o with
  | Exc e => if is_CancelledError e then Ret tt else Exc e
  | o' => o'
  end.

(** Lines 129-138: the [finally] clause of the filtered path. *)
Definition cleanup (W : World) (proc : Process) (writer_task : M unit)
    : M unit :=
  match stdin proc with
  | Some _ => emit StdinClose
  | None => ret tt
  end ;;
  await_wait proc ;;
  emit TaskCancel ;;
  try_except (await_task W writer_task) is_CancelledError (fun _ => ret tt).

(** The steps of the [finally] clause that follow the wait. *)
Definition after_wait (w : WaitResult) : list Event :=
  match w with
  | Exited => [TaskCancel; TaskAwait]
  | _ => []
  end.

(** The process object of a filter spawned with its three channels piped. *)
Definition piped (f : Filter) : Process :=
  {| stdin := Some (f_stdin f);
     stdout := Some (f_stdout f);
     wait := f_wait f |}.

(** Lines 123-138: the filtered path, from the reading loop on. *)
Definition filtered (W : World) (proc : Process) (writer_task : M unit)
    : M unit :=
  try_finally
    (match stdout proc with
     | Some reads => read_loop W reads 0
     | None =>
         raise (OtherException "AttributeError"
                  "'NoneType' object has no attribute 'read'")
     end)
    (cleanup W proc writer_task).

(** Lines 142-144: the direct path,
    [async for chunk in communicate.stream()]. *)
Fixpoint direct (W : World) (cs : list Chunk) (fin : option Exn) (i : nat)
    : M unit :=
  match cs with
  | [] =>
      emit StreamNext ;;
      match fin with
      | Some e => raise e
      | None => ret tt
      end
  | chunk :: rest =>
      emit StreamNext ;;
      if String.eqb (ctype chunk) "audio" then
        yield_ W i (cdata chunk) ;; direct W rest fin (S i)
      else direct W rest fin i
  end.

(** The handler of [generate_edge_audio]: [logger.error(..)] and [raise]. *)
Definition log_and_reraise (e : Exn) : M unit :=
  emit (LogError ("生成失败: " ++ str_exn e)) ;; raise e.

(** The line that handler writes for a run that ended with [o]. *)
Definition error_log (o : Outcome unit) : list Event :=
  match o with
  | Exc e =>
      if is_Exception e then [LogError ("生成失败: " ++ str_exn e)] else []
  | _ => []
  end.

(** Lines 83-97: the statements of [generate_edge_audio] before the choice
    of a path: the voice is resolved and looked up in the provider's
    catalogue, the rate is computed, and the provider's stream object is
    made. *)
Definition open_stream (W : World) (text : string) (config : ModelConfig)
    (voice : string) (speed : option F64.float) : M Stream :=
  let real_voice := real_voice config voice in
  all_voices <- (emit ListVoices ;; lift (list_voices W)) ;;
  (if negb (known_voice all_voices real_voice)
   then raise (ValueError ("无效语音: " ++ real_voice))
   else ret tt) ;;
  speed <- lift (clamp_speed config speed) ;;
  rate <- lift (rate_of speed) ;;
  emit (NewCommunicate text real_voice rate) ;;
  lift (Communicate W text real_voice rate).

Section Generator.

(** [str(x)] for a float, as the f-string of the filter expression
    renders it. *)
Variable str_float : F64.float -> string.

Definition str_volume (volume : option F64.float) : string :=
  match volume with
  | Some v => str_float v
  | None => "None"
  end.

Definition ffmpeg_cmd (volume : option F64.float) : list string :=
  [ "ffmpeg";
    "-i"; "pipe:0";
    "-af"; ("volume=" ++ str_volume volume)%string;
    "-f"; "mp3";
    "-loglevel"; "quiet";
    "pipe:1" ].

Definition generate_edge_audio (W : World) (text : string)
    (config : ModelConfig) (voice : string) (speed volume : option F64.float)
    : M unit :=
  try_except
    (communicate <- open_stream W text config voice speed ;;
     if needs_filter volume then
       proc <- create_subprocess_exec W (ffmpeg_cmd volume) PIPE PIPE PIPE ;;
       let writer_task := write_audio communicate (stdin proc) in
       emit (CreateTask writer_task) ;;
       filtered W proc writer_task
     else
       direct W (chunks communicate) (ending communicate) 0)
    is_Exception
    log_and_reraise.

End Generator.

(** ** The endpoint: [create_speech] *)

(** The call [generate_edge_audio(text=.., config=.., voice=.., speed=..,
    volume=..)] that a streaming response holds: the generator runs when the
    response is sent. *)
Record GeneratorCall : Type := {
  g_text : string;
  g_config : ModelConfig;
  g_voice : string;
  g_speed : option F64.float;
  g_volume : option F64.float
}.

(** What the endpoint returns: a [StreamingResponse], or the dictionary
    [{"error": {"message": .., "type": .., "code": ..}}]. *)
Inductive Response : Type :=
| StreamingResponse (content : GeneratorCall) (media_type : string)
    (headers : list (string * string))
| ErrorBody (message type_ : string) (code : Z).

(** Exceptions that statements of the [try] block other than the explicit
    [raise]s may throw: the logging of the request, and the construction of
    the response. *)
Record Faults : Type := {
  at_logging : option Exn;
  at_response : option Exn
}.

Definition no_faults : Faults := {| at_logging := None; at_response := None |}.

Definition fault (f : option Exn) : Exn + unit :=
  match f with
  | Some e => inl e
  | None => inr tt
  end.

(** Lines 153-185: the [try] block of [create_speech]. *)
Definition create_speech_body (F : Faults) (request : TTSParameters)
    : Exn + Response :=
  match fault (at_logging F) with
  | inl e => inl e
  | inr _ =>
  match dict_get MODEL_CONFIG (model request) with
  | None => inl (HTTPException 400 ("不支持的模型: " ++ model request))
  | Some config =>
      if negb (opt_str_in (response_format request) (allowed_formats config))
      then inl (HTTPException 400
                  ("模型" ++ model request ++ "不支持格式: "
                   ++ str_opt (response_format request)))
      else
        let voice' := lower (voice request) in
        if negb (dict_mem (voice_map config) voice')
        then inl (HTTPException 400
                    ("模型" ++ model request ++ "不支持语音: "
                     ++ voice request))
        else
          match fault (at_response F) with
          | inl e => inl e
          | inr _ =>
              inr (StreamingResponse
                     {| g_text := input request;
                        g_config := config;
                        g_voice := voice';
                        g_speed := speed request;
                        g_volume := volume request |}
                     ("audio/" ++ str_opt (response_format request))
                     [ ("Content-Disposition",
                        "attachment; filename=speech.mp3");
                       ("OpenAI-Processing-Ms", "800") ])
          end
  end
  end.

(** [create_speech]: [except HTTPException: raise], then [except Exception
    as e: return {"error": ..}]. *)
Definition create_speech (F : Faults) (request : TTSParameters)
    : Exn + Response :=
  match create_speech_body F request with
  | inl e =>
      if is_HTTPException e then inl e
      else if is_Exception e
           then inr (ErrorBody (str_exn e) "invalid_request_error" 500)
           else inl e
  | inr r => inr r
  end.

(** The status line of the HTTP response: that of a raised [HTTPException];
    200, the route's default, for a returned value; 500 for any other
    exception that leaves the endpoint. *)
Definition http_status (r : Exn + Response) : Z :=
  match r with
  | inl (HTTPException c _) => c
  | inl _ => 500
  | inr _ => 200
  end.

(** Serving a request: the endpoint, and then the generator of the
    streaming response if there is one. *)
Definition serve (str_float : F64.float -> string) (W : World) (F : Faults)
    (request : TTSParameters) : M unit :=
  match create_speech F request with
  | inr (StreamingResponse g _ _) =>
      generate_edge_audio str_float W (g_text g) (g_config g) (g_voice g)
        (g_speed g) (g_volume g)
  | _ => ret tt
  end.

(** The data of the audio-tagged chunks of a stream, in order. *)
Definition audio_data (cs : list Chunk) : list bytes :=
  map cdata (filter (fun c => String.eqb (ctype c) "audio") cs).

(** The data handed to [stdin.write], in order. *)
Fixpoint written (t : list Event) : list bytes :=
  match t with
  | [] => []
  | StdinWrite d :: r => d :: written r
  | _ :: r => written r
  end.

Definition is_close (ev : Event) : bool :=
  match ev with StdinClose => true | _ => false end.

Definition is_cancel (ev : Event) : bool :=
  match ev with TaskCancel => true | _ => false end.

(** The coroutines handed to [asyncio.create_task] in a run, in order. *)
Fixpoint tasks (t : list Event) : list (M unit) :=
  match t with
  | [] => []
  | CreateTask coro :: r => coro :: tasks r
  | _ :: r => tasks r
  end.

(** What the tasks created in a run with the effects [t] have performed: a
    task runs beside its creator to its end, unless the creator has come to
    [writer_task.cancel()] and found it suspended. *)
Definition task_events (W : World) (t : list Event) : list Event :=
  flat_map
    (fun coro => trace (if existsb is_cancel t then cancelled W coro else coro))
    (tasks t).

(** ** Sample requests and worlds

    Concrete inputs on which the model is run below. *)

(** [str(x)] on the volumes the sample requests use. *)
Definition sample_str_float (x : F64.float) : string :=
  if F64.eqb x (F64.of_Z 2) then "2.0"
  else if F64.eqb x (F64.of_Z 3) then "3.0"
  else "0.5".

Definition sample_catalogue : list VoiceInfo :=
  [ {| ShortName := "en-US-GuyNeural" |};
    {| ShortName := "en-US-AriaNeural" |};
    {| ShortName := "zh-CN-YunxiNeural" |} ].

Definition audio_a : bytes := [Byte.x49; Byte.x44; Byte.x33].
Definition audio_b : bytes := [Byte.xff; Byte.xfb].
Definition filtered_a : bytes := [Byte.x49; Byte.x44; Byte.x33; Byte.x04].
Definition filtered_b : bytes := [Byte.xff; Byte.xf3].

(** Two audio chunks around a word-boundary chunk. *)
Definition sample_chunks : list Chunk :=
  [ {| ctype := "audio"; cdata := audio_a |};
    {| ctype := "WordBoundary"; cdata := [] |};
    {| ctype := "audio"; cdata := audio_b |} ].

Definition sample_stream : Stream :=
  {| chunks := sample_chunks; ending := None |}.

(** A stream that fails after its first chunk. *)
Definition failing_stream : Stream :=
  {| chunks := [ {| ctype := "audio"; cdata := audio_a |} ];
     ending := Some (OtherException "NoAudioReceived" "connection lost") |}.

Definition sound_pipe : StdinPipe :=
  {| drain := fun _ => None; wait_closed := None |}.

(** A pipe whose reader has gone: the first [drain()] fails. *)
Definition broken_pipe : StdinPipe :=
  {| drain := fun _ => Some (OtherException "BrokenPipeError" "Broken pipe");
     wait_closed := None |}.

(** A filter that emits two blocks and closes its output; [exits] tells
    whether it ever exits. *)
Definition sample_filter (exits : bool) : Filter :=
  {| f_stdin := sound_pipe;
     f_stdout := [ReadBytes filtered_a; ReadBytes filtered_b; ReadBytes []];
     f_wait := if exits then Exited else NeverExits |}.

Definition sample_world (exits : bool) (closes : option nat) : World :=
  {| list_voices := inr sample_catalogue;
     Communicate := fun _ _ _ => inr sample_stream;
     spawn := fun _ => inr (sample_filter exits);
     closes_at := closes;
     cancel_finds := None;
     join_raises := None |}.

(** A world whose catalogue lacks the voices of the model table. *)
Definition foreign_world : World :=
  {| list_voices := inr [ {| ShortName := "fr-FR-HenriNeural" |} ];
     Communicate := fun _ _ _ => inr sample_stream;
     spawn := fun _ => inr (sample_filter true);
     closes_at := None;
     cancel_finds := None;
     join_raises := None |}.

Definition sample_request (m v : string) (fmt : option string)
    (sp vol : option F64.float) : TTSParameters :=
  {| model := m; input := "hello"; voice := v; response_format := fmt;
     speed := sp; volume := vol |}.

(** The entry of [MODEL_CONFIG] for "tts-1". *)
Definition tts_1 : ModelConfig :=
  {| quality := "standard";
     allowed_formats := ["mp3"];
     voice_map := [ ("alloy", "en-US-GuyNeural");
                    ("echo", "en-US-JennyNeural");
                    ("nova", "zh-CN-YunxiNeural") ] |}.

Definition one : F64.float := F64.of_Z 1.
Definition two : F64.float := F64.of_Z 2.

(** A world in which the filter does not exit and the request's task is
    cancelled while the generator waits for it. *)
Definition cancelled_wait_world : World :=
  {| list_voices := inr sample_catalogue;
     Communicate := fun _ _ _ => inr sample_stream;
     spawn := fun _ =>
       inr {| f_stdin := sound_pipe;
              f_stdout := [ReadBytes filtered_a; ReadBytes filtered_b;
                           ReadBytes []];
              f_wait := WaitRaises CancelledError |};
     closes_at := None;
     cancel_finds := None;
     join_raises := None |}.



(** A world whose consumer leaves after the first block, while the writer
    task is suspended at its second [await], the first [drain()]. *)
Definition early_close_world : World :=
  {| list_voices := inr sample_catalogue;
     Communicate := fun _ _ _ => inr sample_stream;
     spawn := fun _ => inr (sample_filter true);
     closes_at := Some 0%nat;
     cancel_finds := Some 1%nat;
     join_raises := None |}.

(** ** Further definitions

    The remaining functions of the source, and what the further properties
    below are stated with. *)

Definition is_wait (ev : Event) : bool :=
  match ev with ProcWait => true | _ => false end.

Definition is_log (ev : Event) : bool :=
  match ev with LogError _ => true | _ => false end.

(** How many events of a trace satisfy [p]. *)
Definition count (p : Event -> bool) (t : list Event) : nat :=
  length (filter p t).

(** Lines 69-75: [read_audio(stdout)], from its [i]-th [yield] on: blocks of
    at most 4096 bytes are read and yielded until a read returns nothing. *)
Fixpoint read_audio (W : World) (stdout : list ReadResult) (i : nat) : M unit :=
  match stdout with
  | [] => emit (StdoutRead 4096) ;; blocked
  | ReadRaises e :: _ => emit (StdoutRead 4096) ;; raise e
  | ReadBytes chunk :: rest =>
      emit (StdoutRead 4096) ;;
      match chunk with
      | [] => ret tt
      | _ => yield_ W i chunk ;; read_audio W rest (S i)
      end
  end.

Definition is_read (ev : Event) : bool :=
  match ev with StdoutRead _ => true | _ => false end.

(** The events a path of the generator may perform before its handler:
    everything but a log line, a start of a process, a wait for one, or a
    kill. *)
Definition is_plain (ev : Event) : bool :=
  negb (is_log ev || is_spawn ev || is_wait ev || is_kill ev).

(** A world without the filter's executable. *)
Definition missing_filter_world : World :=
  {| list_voices := inr sample_catalogue;
     Communicate := fun _ _ _ => inr sample_stream;
     spawn := fun _ => inl (OtherException "FileNotFoundError"
                              "No such file or directory: 'ffmpeg'");
     closes_at := None;
     cancel_finds := None;
     join_raises := None |}.

(** A world whose provider fails after the first chunk. *)
Definition failing_provider_world : World :=
  {| list_voices := inr sample_catalogue;
     Communicate := fun _ _ _ => inr failing_stream;
     spawn := fun _ => inr (sample_filter true);
     closes_at := None;
     cancel_finds := None;
     join_raises := None |}.

(** The request [r] with the voice [v]. *)
Definition set_voice (r : TTSParameters) (v : string) : TTSParameters :=
  {| model := model r; input := input r; voice := v;
     response_format := response_format r; speed := speed r;
     volume := volume r |}.

(** The headers of every streaming response (lines 181-184). *)
Definition speech_headers : list (string * string) :=
  [ ("Content-Disposition", "attachment; filename=speech.mp3");
    ("OpenAI-Processing-Ms", "800") ].

(** An entry of the list served at [/v1/voices]. *)
Record VoiceEntry : Type := {
  voice_id : string;
  voice_name : string;
  capacities : list string
}.

(** Lines 201-221: the data returned by the endpoint [/v1/voices] (the
    function [list_voices] of the source; the name is the provider's
    function here). *)
Definition voices_endpoint : list VoiceEntry :=
  [ {| voice_id := "alloy"; voice_name := "Alloy (EdgeTTS)";
       capacities := ["tts-1"; "tts-1-hd"] |};
    {| voice_id := "echo"; voice_name := "Echo (EdgeTTS)";
       capacities := ["tts-1"; "tts-1-hd"] |};
    {| voice_id := "nova"; voice_name := "Nova (EdgeTTS)";
       capacities := ["tts-1"; "tts-1-hd"] |} ].

(** Whether the endpoint answers with a streaming response. *)
Definition accepted (r : Exn + Response) : bool :=
  match r with
  | inr (StreamingResponse _ _ _) => true
  | _ => false
  end.

(** The entry of [MODEL_CONFIG] for "tts-1-hd". *)
Definition tts_1_hd : ModelConfig :=
  {| quality := "enhanced";
     allowed_formats := ["mp3"];
     voice_map := [ ("alloy", "en-US-AriaNeural");
                    ("echo", "en-US-DavisNeural");
                    ("nova", "zh-CN-YunjianNeural") ] |}.

(** A world whose provider refuses a rate that is not a sign followed by
    digits and "%". *)
Definition strict_provider_world : World :=
  {| list_voices := inr sample_catalogue;
     Communicate := fun _ _ rate =>
       if contains "+-" rate
       then inl (ValueError ("Invalid rate '" ++ rate ++ "'."))
       else inr sample_stream;
     spawn := fun _ => inr (sample_filter true);
     closes_at := None;
     cancel_finds := None;
     join_raises := None |}.

(** ** Properties *)

(** *** The trace monad *)

Lemma bind_emit {B : Type} (ev : Event) (k : unit -> M B) :
  bind (emit ev) k = (ev :: trace (k tt), outcome (k tt)).
Proof. unfold bind, emit, trace, outcome. destruct (k tt); reflexivity. Qed.

Lemma trace_bind_emit {B : Type} (ev : Event) (k : unit -> M B) :
  trace (bind (emit ev) k) = ev :: trace (k tt).
Proof. rewrite bind_emit. reflexivity. Qed.

Lemma outcome_bind_emit {B : Type} (ev : Event) (k : unit -> M B) :
  outcome (bind (emit ev) k) = outcome (k tt).
Proof. rewrite bind_emit. reflexivity. Qed.

Lemma surjective_run {A : Type} (m : M A) : m = (trace m, outcome m).
Proof. destruct m; reflexivity. Qed.

(** *** The reading loop *)

Lemma yield_run (W : World) (i : nat) (chunk : bytes) :
  yield_ W i chunk =
  ([Yield chunk],
   match closes_at W with
   | Some n => if Nat.eqb n i then Exc GeneratorExit else Ret tt
   | None => Ret tt
   end).
Proof.
  unfold yield_. rewrite bind_emit.
  destruct (closes_at W) as [n |]; [destruct (Nat.eqb n i) |]; reflexivity.
Qed.

Lemma read_loop_events (W : World) (reads : list ReadResult) (i : nat) :
  forallb is_loop_event (trace (read_loop W reads i)) = true.
Proof.
  revert i. induction reads as [| r rest IH]; intros i.
  - reflexivity.
  - destruct r as [chunk | e]; cbn [read_loop].
    + rewrite trace_bind_emit. cbn [forallb is_loop_event andb].
      destruct chunk as [| b chunk']; [reflexivity |].
      rewrite yield_run.
      destruct (closes_at W) as [n |]; [destruct (Nat.eqb n i) |];
        cbn [bind trace fst];
        try reflexivity;
        rewrite (surjective_run (read_loop W rest (S i)));
        cbn [app fst forallb is_loop_event andb]; apply IH.
    + reflexivity.
Qed.

Lemma outcome_bind {A B : Type} (m : M A) (k : A -> M B) :
  outcome (bind m k) =
  match outcome m with
  | Ret a => outcome (k a)
  | Exc e => Exc e
  | Blocked => Blocked
  end.
Proof.
  destruct m as [t [a | e |]]; cbn [bind outcome snd]; try reflexivity.
  destruct (k a); reflexivity.
Qed.

Lemma trace_bind {A B : Type} (m : M A) (k : A -> M B) :
  trace (bind m k) =
  trace m ++ match outcome m with
             | Ret a => trace (k a)
             | _ => []
             end.
Proof.
  destruct m as [t [a | e |]]; cbn [bind trace outcome fst snd];
    try (rewrite app_nil_r; reflexivity).
  destruct (k a); reflexivity.
Qed.

(** *** The writer task *)

Lemma await_drain_never_blocks (pipe : StdinPipe) (k : nat) :
  never_blocks (await_drain pipe k).
Proof.
  unfold never_blocks, await_drain. rewrite outcome_bind_emit.
  destruct (drain pipe k); discriminate.
Qed.

Lemma write_chunks_never_blocks (stdin : option StdinPipe) (cs : list Chunk)
    (k : nat) :
  never_blocks (write_chunks stdin cs k).
Proof.
  unfold never_blocks. revert k.
  induction cs as [| chunk rest IH]; intros k; [discriminate |].
  cbn [write_chunks]. rewrite outcome_bind_emit.
  destruct stdin as [pipe |]; [| apply IH].
  destruct (String.eqb (ctype chunk) "audio"); [| apply IH].
  rewrite outcome_bind_emit, outcome_bind.
  pose proof (await_drain_never_blocks pipe k) as Hd. unfold never_blocks in Hd.
  destruct (outcome (await_drain pipe k)); [apply IH | discriminate | congruence].
Qed.

Lemma write_audio_body_never_blocks (communicate : Stream)
    (stdin : option StdinPipe) :
  never_blocks (write_audio_body communicate stdin).
Proof.
  unfold never_blocks, write_audio_body. rewrite outcome_bind.
  pose proof (write_chunks_never_blocks stdin (chunks communicate) 0) as Hw.
  unfold never_blocks in Hw.
  destruct (outcome (write_chunks stdin (chunks communicate) 0));
    [| discriminate | congruence].
  rewrite outcome_bind. unfold stream_end. rewrite outcome_bind_emit.
  destruct (ending communicate); [discriminate |].
  cbn [outcome ret snd].
  destruct stdin as [pipe |]; [| discriminate].
  rewrite !outcome_bind_emit. destruct (wait_closed pipe); discriminate.
Qed.

(** How the writer task ends: by returning, or by the cancellation (or
    another exception outside [Exception]) that reached it. *)
Lemma write_audio_outcome (communicate : Stream) (stdin : option StdinPipe) :
  outcome (write_audio communicate stdin) = Ret tt
  \/ exists e, outcome (write_audio communicate stdin) = Exc e
               /\ outcome (write_audio_body communicate stdin) = Exc e
               /\ is_Exception e = false.
Proof.
  unfold write_audio, try_except.
  pose proof (write_audio_body_never_blocks communicate stdin) as Hb.
  unfold never_blocks in Hb.
  destruct (write_audio_body communicate stdin) as [t [[] | e |]];
    cbn [outcome snd] in *; [left; reflexivity | | congruence].
  destruct (is_Exception e) eqn:E.
  - left. reflexivity.
  - right. exists e. repeat split; assumption.
Qed.


Lemma written_app (a b : list Event) : written (a ++ b) = written a ++ written b.
Proof.
  induction a as [| ev a IH]; [reflexivity |].
  destruct ev; cbn [app written]; rewrite ?IH; reflexivity.
Qed.


Lemma write_chunks_drains_ok (pipe : StdinPipe) (cs : list Chunk) (k : nat) :
  (forall j, drain pipe j = None) ->
  outcome (write_chunks (Some pipe) cs k) = Ret tt.
Proof.
  intros Hd. revert k. induction cs as [| c rest IH]; intros k; [reflexivity |].
  cbn [write_chunks]. rewrite bind_emit. cbn [outcome snd].
  destruct (String.eqb (ctype c) "audio"); [| apply IH].
  rewrite bind_emit. cbn [outcome snd]. unfold await_drain.
  rewrite bind_emit, Hd. cbn [bind ret trace outcome fst snd app].
  rewrite (surjective_run (write_chunks (Some pipe) rest (S k))).
  cbn [outcome snd]. apply IH.
Qed.

Lemma write_audio_trace (communicate : Stream) (sink : option StdinPipe) :
  exists log,
    trace (write_audio communicate sink)
    = trace (write_audio_body communicate sink) ++ log
    /\ written log = []
    /\ existsb is_close log = false.
Proof.
  unfold write_audio, try_except.
  destruct (write_audio_body communicate sink) as [t [[] | e |]].
  - exists []. cbn [trace fst]. rewrite app_nil_r. repeat split.
  - destruct (is_Exception e).
    + exists [LogError ("写入音频失败: " ++ str_exn e)]. repeat split.
    + exists []. cbn [trace fst]. rewrite app_nil_r. repeat split.
  - exists []. cbn [trace fst]. rewrite app_nil_r. repeat split.
Qed.


Lemma write_chunks_never_closes (sink : option StdinPipe) (cs : list Chunk)
    (k : nat) :
  existsb is_close (trace (write_chunks sink cs k)) = false.
Proof.
  revert k. induction cs as [| c rest IH]; intros k; [reflexivity |].
  cbn [write_chunks]. rewrite bind_emit. cbn [trace fst existsb is_close orb].
  destruct sink as [pipe |]; [| apply IH].
  destruct (String.eqb (ctype c) "audio"); [| apply IH].
  rewrite bind_emit. cbn [trace fst existsb is_close orb].
  unfold await_drain. rewrite bind_emit.
  destruct (drain pipe k); [reflexivity |].
  cbn [bind ret trace outcome fst snd app].
  rewrite (surjective_run (write_chunks (Some pipe) rest (S k))).
  cbn [trace fst existsb is_close orb]. apply IH.
Qed.

(** *** The [finally] clause *)

Lemma await_task_run (W : World) (writer_task : M unit) :
  await_task W writer_task =
  ([TaskAwait],
   match suspended W writer_task with
   | Some _ =>
       Exc match join_raises W with Some e => e | None => CancelledError end
   | None => outcome writer_task
   end).
Proof.
  unfold await_task. rewrite bind_emit.
  destruct (suspended W writer_task); [destruct (join_raises W) |];
    reflexivity.
Qed.

Lemma cleanup_run (W : World) (proc : Process) (writer_task : M unit) :
  cleanup W proc writer_task =
  (match stdin proc with Some _ => [StdinClose] | None => [] end
     ++ ProcWait :: after_wait (wait proc),
   match wait proc with
   | Exited => joined (outcome (await_task W writer_task))
   | NeverExits => Blocked
   | WaitRaises e => Exc e
   end).
Proof.
  unfold cleanup, await_wait, try_except, joined, after_wait.
  rewrite await_task_run. cbn [outcome snd].
  set (o := match suspended W writer_task with
            | Some _ =>
                Exc match join_raises W with
                    | Some e => e
                    | None => CancelledError
                    end
            | None => outcome writer_task
            end).
  destruct (stdin proc), (wait proc) as [| | e0]; cbn; try reflexivity;
    destruct o as [[] | e |]; cbn; try reflexivity;
    destruct (is_CancelledError e); reflexivity.
Qed.

Lemma filtered_run (W : World) (proc : Process) (writer_task : M unit)
    (reads : list ReadResult) :
  stdout proc = Some reads ->
  filtered W proc writer_task =
  match outcome (read_loop W reads 0) with
  | Blocked => read_loop W reads 0
  | o =>
      (trace (read_loop W reads 0) ++ trace (cleanup W proc writer_task),
       match outcome (cleanup W proc writer_task) with
       | Ret _ => o
       | o' => o'
       end)
  end.
Proof.
  intros Hout. unfold filtered, try_finally. rewrite Hout.
  destruct (read_loop W reads 0) as [t o].
  destruct (cleanup W proc writer_task) as [t' o'].
  cbn [trace outcome fst snd].
  destruct o as [[] | e |]; destruct o' as [[] | e' |]; reflexivity.
Qed.

(** *** The generator, path by path *)

Lemma handled_run (m : M unit) :
  try_except m is_Exception log_and_reraise =
  (trace m ++ error_log (outcome m), outcome m).
Proof.
  destruct m as [t [[] | e |]]; cbn [try_except trace outcome fst snd error_log];
    rewrite ?app_nil_r; try reflexivity.
  destruct (is_Exception e); [reflexivity | rewrite app_nil_r; reflexivity].
Qed.

Lemma open_stream_returns (W : World) (text : string) (config : ModelConfig)
    (voice : string) (speed : option F64.float) (t : list Event)
    (communicate : Stream) :
  open_stream W text config voice speed = (t, Ret communicate) ->
  exists voices speed' rate,
    list_voices W = inr voices
    /\ known_voice voices (real_voice config voice) = true
    /\ clamp_speed config speed = inr speed'
    /\ rate_of speed' = inr rate
    /\ Communicate W text (real_voice config voice) rate = inr communicate
    /\ t = [ListVoices; NewCommunicate text (real_voice config voice) rate].
Proof.
  unfold open_stream.
  destruct (list_voices W) as [e | voices] eqn:Hv; [discriminate |].
  cbn [lift bind emit ret app].
  destruct (known_voice voices (real_voice config voice)) eqn:Hk;
    [| discriminate].
  cbn [negb bind ret app].
  destruct (clamp_speed config speed) as [e | speed'] eqn:Hs; [discriminate |].
  cbn [lift bind ret app].
  destruct (rate_of speed') as [e | rate] eqn:Hr; [discriminate |].
  cbn [lift bind ret emit app].
  destruct (Communicate W text (real_voice config voice) rate)
    as [e | c] eqn:Hc; [discriminate |].
  cbn [lift bind ret emit app]. intros H. injection H as <- <-.
  exists voices, speed', rate. repeat split; try assumption; reflexivity.
Qed.

Lemma open_stream_run (W : World) (text : string) (config : ModelConfig)
    (voice : string) (speed speed' : option F64.float)
    (voices : list VoiceInfo) (rate : string) (communicate : Stream) :
  list_voices W = inr voices ->
  known_voice voices (real_voice config voice) = true ->
  clamp_speed config speed = inr speed' ->
  rate_of speed' = inr rate ->
  Communicate W text (real_voice config voice) rate = inr communicate ->
  open_stream W text config voice speed =
  ([ListVoices; NewCommunicate text (real_voice config voice) rate],
   Ret communicate).
Proof.
  intros Hv Hk Hc Hr Hs. unfold open_stream.
  rewrite Hv. cbn [lift bind emit ret app]. rewrite Hk.
  cbn [negb bind ret app]. rewrite Hc. cbn [lift bind ret app].
  rewrite Hr. cbn [lift bind ret emit app]. rewrite Hs. reflexivity.
Qed.

Section Runs.

Variable str_float : F64.float -> string.

Lemma generate_filtered_run (W : World) (text : string) (config : ModelConfig)
    (voice : string) (speed volume : option F64.float) (t : list Event)
    (communicate : Stream) (f : Filter) :
  open_stream W text config voice speed = (t, Ret communicate) ->
  needs_filter volume = true ->
  spawn W (ffmpeg_cmd str_float volume) = inr f ->
  let run := filtered W (piped f) (write_audio communicate (Some (f_stdin f))) in
  generate_edge_audio str_float W text config voice speed volume =
  (t ++ [SubprocessExec (ffmpeg_cmd str_float volume) PIPE PIPE PIPE;
         CreateTask (write_audio communicate (Some (f_stdin f)))]
     ++ trace run ++ error_log (outcome run),
   outcome run).
Proof.
  intros Ho Hn Hs run. unfold generate_edge_audio.
  rewrite handled_run, Ho, Hn.
  unfold create_subprocess_exec. rewrite Hs.
  cbn [bind emit lift ret app].
  fold (piped f). change (stdin (piped f)) with (Some (f_stdin f)).
  fold run. destruct run as [t' o]. cbn [trace outcome fst snd].
  rewrite <- !app_assoc. reflexivity.
Qed.

Lemma generate_direct_run (W : World) (text : string) (config : ModelConfig)
    (voice : string) (speed volume : option F64.float) (t : list Event)
    (communicate : Stream) :
  open_stream W text config voice speed = (t, Ret communicate) ->
  needs_filter volume = false ->
  let run := direct W (chunks communicate) (ending communicate) 0 in
  generate_edge_audio str_float W text config voice speed volume =
  (t ++ trace run ++ error_log (outcome run), outcome run).
Proof.
  intros Ho Hn run. unfold generate_edge_audio.
  rewrite handled_run, Ho, Hn. cbn [bind].
  fold run. destruct run as [t' o]. cbn [trace outcome fst snd].
  rewrite <- !app_assoc. reflexivity.
Qed.

Lemma generate_no_stream (W : World) (text : string) (config : ModelConfig)
    (voice : string) (speed volume : option F64.float) :
  (forall c, outcome (open_stream W text config voice speed) <> Ret c) ->
  trace (generate_edge_audio str_float W text config voice speed volume) =
  trace (open_stream W text config voice speed)
    ++ match outcome (open_stream W text config voice speed) with
       | Exc e => error_log (Exc e)
       | _ => []
       end.
Proof.
  intros Hno. unfold generate_edge_audio. rewrite handled_run.
  destruct (open_stream W text config voice speed) as [t [c | e |]];
    cbn [bind trace outcome fst snd]; [| reflexivity | reflexivity].
  exfalso. apply (Hno c). reflexivity.
Qed.

End Runs.

(** *** The rate adjustment *)

Lemma SFcompare_antisym (x y : spec_float) :
  SFcompare y x = option_map CompOpp (SFcompare x y).
Proof.
  destruct x as [sx | sx | | sx mx ex], y as [sy | sy | | sy my ey];
    try reflexivity; try (destruct sx; reflexivity);
    try (destruct sy; reflexivity);
    try (destruct sx, sy; reflexivity).
  cbn [SFcompare option_map].
  destruct sx, sy; try reflexivity;
    rewrite (Z.compare_antisym ex ey);
    destruct (ex ?= ey) eqn:E; cbn [CompOpp]; try reflexivity;
    repeat f_equal; symmetry; exact (Pos.compare_cont_antisym mx my Eq).
Qed.

Lemma ltb_leb (x y : F64.float) : F64.ltb x y = true -> F64.leb x y = true.
Proof.
  unfold F64.ltb, F64.leb, SFltb, SFleb.
  destruct (SFcompare x y) as [[| |] |]; congruence.
Qed.

Lemma not_ltb_leb (x y : F64.float) :
  x <> S754_nan -> y <> S754_nan -> F64.ltb x y = false -> F64.leb y x = true.
Proof.
  intros Hx Hy. unfold F64.ltb, F64.leb, SFltb, SFleb.
  rewrite (SFcompare_antisym x y).
  destruct (SFcompare x y) as [[| |] |] eqn:E; cbn; try congruence.
  destruct x, y; try congruence; discriminate.
Qed.

(** For the quality "enhanced" the speed used for the rate lies between 0.8
    and 1.5. *)
Lemma clamp_speed_bounds (config : ModelConfig) (s : F64.float) :
  quality config = "enhanced" ->
  s <> S754_nan ->
  exists s', clamp_speed config (Some s) = inr (Some s')
             /\ F64.leb (F64.lit 8 10) s' = true
             /\ F64.leb s' (F64.lit 15 10) = true.
Proof.
  intros Hq Hs. unfold clamp_speed. rewrite Hq. cbn [String.eqb].
  change ("enhanced" =? "enhanced")%string with true. cbv iota.
  eexists. split; [reflexivity |].
  unfold F64.max, F64.min.
  destruct (F64.ltb (F64.lit 15 10) s) eqn:E1.
  - split; reflexivity.
  - destruct (F64.ltb (F64.lit 8 10) s) eqn:E2.
    + split; [apply ltb_leb; exact E2 |].
      apply not_ltb_leb; [discriminate | exact Hs | exact E1].
    + split; [reflexivity |].
      vm_compute. reflexivity.
Qed.

Lemma str_int_neg (p : positive) :
  str_int (Zneg p) = String "-" (str_int (Zpos p)).
Proof. reflexivity. Qed.

Lemma contains_minus_cons (c : ascii) (s : string) :
  c <> "-"%char -> contains "-" (String c s) = contains "-" s.
Proof.
  intros Hc. cbn [contains String.prefix].
  destruct (ascii_dec "-" c) as [E | _]; [congruence | reflexivity].
Qed.

Lemma contains_minus_digits (d : Decimal.uint) (s : string) :
  contains "-" (NilEmpty.string_of_uint d ++ s) = contains "-" s.
Proof.
  induction d; cbn [NilEmpty.string_of_uint String.append];
    try reflexivity; rewrite contains_minus_cons by discriminate; exact IHd.
Qed.

Lemma contains_minus_nonneg (n : Z) (s : string) :
  0 <= n -> contains "-" (str_int n ++ s) = contains "-" s.
Proof.
  intros Hn. destruct n as [| p | p]; [reflexivity | | lia].
  unfold str_int, Z.to_int, NilZero.string_of_int, NilZero.string_of_uint.
  destruct (Pos.to_uint p) eqn:E;
    try (rewrite <- E; apply contains_minus_digits).
  reflexivity.
Qed.

Lemma contains_minus_rate (n : Z) :
  contains "-" ("+" ++ str_int n ++ "%")%string = (n <? 0).
Proof.
  change ("+" ++ str_int n ++ "%")%string with (String "+" (str_int n ++ "%")).
  rewrite contains_minus_cons by discriminate.
  destruct (Z.ltb_spec n 0) as [Hn | Hn].
  - destruct n as [| p | p]; try lia. rewrite str_int_neg.
    cbn [String.append contains String.prefix].
    destruct (ascii_dec "-" "-"); [| congruence].
    destruct (str_int (Z.pos p) ++ "%")%string; reflexivity.
  - rewrite contains_minus_nonneg by assumption. reflexivity.
Qed.

(** C10, amended. For a speed other than 1.0 the rate is the text made of
    "+", the decimal writing of [int((speed - 1) * 100)], and "%", whatever
    the sign of that integer: it has a minus sign exactly when the integer
    is negative, and then reads "+-N%". *)
Theorem rate_plus_prefix (s : F64.float) (n : Z) :
  F64.neb s (F64.of_Z 1) = true ->
  percent s = Some n ->
  exists r, rate_of (Some s) = inr r
            /\ r = ("+" ++ str_int n ++ "%")%string
            /\ String.prefix "+" r = true
            /\ contains "-" r = (n <? 0)
            /\ (n < 0 -> r = ("+-" ++ str_int (- n) ++ "%")%string).
Proof.
  intros Hne Hp. exists ("+" ++ str_int n ++ "%")%string.
  unfold rate_of. rewrite Hne, Hp.
  split; [reflexivity |]. split; [reflexivity |]. split; [| split].
  - cbn [String.append String.prefix].
    destruct (ascii_dec "+" "+"); [| congruence].
    destruct (str_int n ++ "%")%string; reflexivity.
  - apply contains_minus_rate.
  - intros Hn. destruct n as [| p | p]; try lia.
    rewrite str_int_neg. reflexivity.
Qed.

Lemma rate_plus_prefix_witness :
  F64.neb (F64.lit 5 10) (F64.of_Z 1) = true
  /\ percent (F64.lit 5 10) = Some (-50)
  /\ exists r, rate_of (Some (F64.lit 5 10)) = inr r
            /\ r = ("+" ++ str_int (-50) ++ "%")%string
            /\ String.prefix "+" r = true
            /\ contains "-" r = (-50 <? 0)
            /\ (-50 < 0 -> r = ("+-" ++ str_int (- -50) ++ "%")%string).
Proof.
  split; [reflexivity | split; [reflexivity |]].
  apply (rate_plus_prefix (F64.lit 5 10) (-50)); reflexivity.
Defined.

(** The speed 0.995 is below 1.0 and is not 1.0, yet its percentage
    truncates to 0 and its rate is "+0%", without a minus sign. *)
Lemma rate_just_below_one :
  well_formed (sample_request "tts-1" "nova" (Some "mp3")
                 (Some (F64.lit 995 1000)) (Some (F64.of_Z 1))) = true
  /\ F64.ltb (F64.lit 995 1000) (F64.of_Z 1) = true
  /\ F64.neb (F64.lit 995 1000) (F64.of_Z 1) = true
  /\ rate_of (Some (F64.lit 995 1000)) = inr "+0%"
  /\ contains "-" "+0%" = false.
Proof. repeat split. Qed.

(** *** The direct path *)

Lemma yielded_app (a b : list Event) :
  yielded (a ++ b) = yielded a ++ yielded b.
Proof.
  induction a as [| ev a IH]; [reflexivity |].
  destruct ev; cbn [app yielded]; rewrite ?IH; reflexivity.
Qed.

Lemma yielded_error_log (o : Outcome unit) : yielded (error_log o) = [].
Proof.
  destruct o as [[] | e |]; try reflexivity.
  cbn [error_log]. destruct (is_Exception e); reflexivity.
Qed.

Lemma open_stream_yields_nothing (W : World) (text : string)
    (config : ModelConfig) (voice : string) (speed : option F64.float) :
  yielded (trace (open_stream W text config voice speed)) = [].
Proof.
  unfold open_stream.
  destruct (list_voices W) as [e | voices]; [reflexivity |].
  cbn [lift bind emit ret app].
  destruct (known_voice voices (real_voice config voice)); [| reflexivity].
  cbn [negb bind ret app].
  destruct (clamp_speed config speed) as [e | speed']; [reflexivity |].
  cbn [lift bind ret app].
  destruct (rate_of speed') as [e | rate]; [reflexivity |].
  cbn [lift bind ret emit app].
  destruct (Communicate W text (real_voice config voice) rate); reflexivity.
Qed.

Lemma direct_yields (W : World) (cs : list Chunk) (fin : option Exn) (i : nat) :
  yielded (trace (direct W cs fin i)) =
  match closes_at W with
  | Some n => if Nat.leb i n then firstn (S n - i) (audio_data cs)
              else audio_data cs
  | None => audio_data cs
  end.
Proof.
  revert i. induction cs as [| c rest IH]; intros i.
  - cbn [direct]. rewrite trace_bind_emit.
    destruct fin; cbn [yielded trace fst raise ret audio_data filter map];
      destruct (closes_at W) as [n |]; try reflexivity;
      destruct (Nat.leb i n); rewrite ?firstn_nil; reflexivity.
  - cbn [direct]. rewrite trace_bind_emit. cbn [yielded].
    unfold audio_data. cbn [filter].
    destruct (String.eqb (ctype c) "audio").
    + rewrite trace_bind, yield_run. cbn [trace outcome fst snd app yielded map].
      specialize (IH (S i)). unfold audio_data in IH.
      destruct (closes_at W) as [n |].
      * destruct (Nat.eqb_spec n i) as [-> | Hne].
        -- rewrite Nat.leb_refl.
           replace (S i - i)%nat with 1%nat by lia. reflexivity.
        -- rewrite IH.
           destruct (Nat.leb_spec i n) as [Hle | Hgt].
           ++ destruct (Nat.leb_spec (S i) n) as [Hle' | Hgt']; [| lia].
              replace (S n - i)%nat with (S (S n - S i)) by lia. reflexivity.
           ++ destruct (Nat.leb_spec (S i) n) as [Hle' | Hgt']; [lia |].
              reflexivity.
      * rewrite IH. reflexivity.
    + apply IH.
Qed.

Lemma direct_no_spawn (W : World) (cs : list Chunk) (fin : option Exn) (i : nat) :
  existsb is_spawn (trace (direct W cs fin i)) = false.
Proof.
  revert i. induction cs as [| c rest IH]; intros i.
  - cbn [direct]. rewrite trace_bind_emit. destruct fin; reflexivity.
  - cbn [direct]. rewrite trace_bind_emit. cbn [existsb is_spawn orb].
    destruct (String.eqb (ctype c) "audio"); [| apply IH].
    rewrite trace_bind, yield_run. cbn [trace outcome fst snd app existsb is_spawn orb].
    destruct (closes_at W) as [n |]; [destruct (Nat.eqb n i) |];
      try reflexivity; apply IH.
Qed.

Lemma error_log_no_spawn (o : Outcome unit) :
  existsb is_spawn (error_log o) = false.
Proof. destruct o as [[] | e |]; try reflexivity. cbn. destruct (is_Exception e); reflexivity. Qed.

Lemma open_stream_no_spawn (W : World) (text : string) (config : ModelConfig)
    (voice : string) (speed : option F64.float) :
  existsb is_spawn (trace (open_stream W text config voice speed)) = false.
Proof.
  unfold open_stream.
  destruct (list_voices W) as [e | voices]; [reflexivity |].
  cbn [lift bind emit ret app].
  destruct (known_voice voices (real_voice config voice)); [| reflexivity].
  cbn [negb bind ret app].
  destruct (clamp_speed config speed) as [e | speed']; [reflexivity |].
  cbn [lift bind ret app].
  destruct (rate_of speed') as [e | rate]; [reflexivity |].
  cbn [lift bind ret emit app].
  destruct (Communicate W text (real_voice config voice) rate); reflexivity.
Qed.

(** C2. With [volume = 1.0] no filter process is spawned, and the chunks
    handed to a consumer that reads to the end are exactly the data of the
    audio-tagged chunks of the provider's stream, in their order (so their
    concatenation is the same bytes); a consumer that closes at its [n]-th
    [yield] has received the first [n + 1] of them, and a generator that
    gets no stream from the provider yields nothing. *)
Theorem direct_path_streams_audio (str_float : F64.float -> string) (W : World)
    (text : string) (config : ModelConfig) (voice : string)
    (speed volume : option F64.float) :
  needs_filter volume = false ->
  let run := generate_edge_audio str_float W text config voice speed volume in
  existsb is_spawn (trace run) = false
  /\ (forall t communicate,
       open_stream W text config voice speed = (t, Ret communicate) ->
       (closes_at W = None ->
        yielded (trace run) = audio_data (chunks communicate)
        /\ concat (yielded (trace run))
           = concat (audio_data (chunks communicate)))
       /\ (forall n, closes_at W = Some n ->
           yielded (trace run) = firstn (S n) (audio_data (chunks communicate))))
  /\ ((forall c, outcome (open_stream W text config voice speed) <> Ret c) ->
      yielded (trace run) = []).
Proof.
  intros Hn run. split; [| split].
  - subst run. unfold generate_edge_audio. rewrite handled_run.
    cbn [trace fst]. rewrite Hn. rewrite existsb_app, error_log_no_spawn, orb_false_r.
    rewrite trace_bind, existsb_app, open_stream_no_spawn. cbn [orb].
    destruct (outcome (open_stream W text config voice speed)); try reflexivity.
    apply direct_no_spawn.
  - intros t communicate Ho.
    assert (Hy : yielded (trace run)
                 = yielded (trace (direct W (chunks communicate)
                                     (ending communicate) 0))).
    { subst run. rewrite (generate_direct_run str_float _ _ _ _ _ _ _ _ Ho Hn).
      cbn [trace fst].
      destruct (open_stream_returns _ _ _ _ _ _ _ Ho)
        as (voices & speed' & rate & _ & _ & _ & _ & _ & ->).
      cbn [app yielded].
      rewrite yielded_app, yielded_error_log, app_nil_r. reflexivity. }
    rewrite Hy, direct_yields. split.
    + intros Hc. rewrite Hc. split; reflexivity.
    + intros n Hc. rewrite Hc. cbn [Nat.leb]. rewrite Nat.sub_0_r. reflexivity.
  - intros Hno. subst run. rewrite generate_no_stream by exact Hno.
    rewrite yielded_app, open_stream_yields_nothing.
    destruct (outcome (open_stream W text config voice speed));
      [reflexivity | apply yielded_error_log | reflexivity].
Qed.

(** *** The endpoint *)

Lemma create_speech_http (F : Faults) (request : TTSParameters) (c : Z)
    (d : string) :
  create_speech_body F request = inl (HTTPException c d) ->
  create_speech F request = inl (HTTPException c d).
Proof. intros H. unfold create_speech. rewrite H. reflexivity. Qed.

(** C6. An unsupported model, format or voice makes the endpoint raise an
    [HTTPException] with status 400; any other exception of class
    [Exception] raised in its [try] block is turned into the returned
    dictionary [{"error": {"message", "type", "code"}}], which is sent with
    the route's status, 200. *)
Theorem endpoint_error_responses (F : Faults) (request : TTSParameters) :
  (at_logging F = None ->
   (dict_get MODEL_CONFIG (model request) = None ->
    create_speech F request
    = inl (HTTPException 400 ("不支持的模型: " ++ model request)))
   /\ (forall config,
        dict_get MODEL_CONFIG (model request) = Some config ->
        opt_str_in (response_format request) (allowed_formats config) = false ->
        create_speech F request
        = inl (HTTPException 400
                 ("模型" ++ model request ++ "不支持格式: "
                  ++ str_opt (response_format request))))
   /\ (forall config,
        dict_get MODEL_CONFIG (model request) = Some config ->
        opt_str_in (response_format request) (allowed_formats config) = true ->
        dict_mem (voice_map config) (lower (voice request)) = false ->
        create_speech F request
        = inl (HTTPException 400
                 ("模型" ++ model request ++ "不支持语音: " ++ voice request))))
  /\ (forall c d, create_speech F request = inl (HTTPException c d) ->
                  http_status (create_speech F request) = c)
  /\ (forall e,
        create_speech_body F request = inl e ->
        is_Exception e = true ->
        is_HTTPException e = false ->
        create_speech F request
        = inr (ErrorBody (str_exn e) "invalid_request_error" 500)
        /\ http_status (create_speech F request) = 200).
Proof.
  split; [| split].
  - intros Hf. repeat split.
    + intros Hm. apply create_speech_http. unfold create_speech_body.
      rewrite Hf, Hm. reflexivity.
    + intros config Hm Hfmt. apply create_speech_http.
      unfold create_speech_body. rewrite Hf, Hm. cbn [fault]. rewrite Hfmt.
      reflexivity.
    + intros config Hm Hfmt Hvoice. apply create_speech_http.
      unfold create_speech_body. rewrite Hf, Hm. cbn [fault].
      rewrite Hfmt, Hvoice. reflexivity.
  - intros c d H. rewrite H. reflexivity.
  - intros e Hb He Hh. unfold create_speech. rewrite Hb, Hh, He.
    split; reflexivity.
Qed.

Lemma endpoint_error_responses_witness :
  create_speech no_faults
    (sample_request "gpt-4" "nova" (Some "mp3") None None)
  = inl (HTTPException 400 "不支持的模型: gpt-4")
  /\ create_speech no_faults
       (sample_request "tts-1" "nova" (Some "wav") None None)
     = inl (HTTPException 400 "模型tts-1不支持格式: wav")
  /\ create_speech no_faults
       (sample_request "tts-1" "shimmer" (Some "mp3") None None)
     = inl (HTTPException 400 "模型tts-1不支持语音: shimmer")
  /\ create_speech
       {| at_logging := Some (OtherException "RuntimeError" "logging failed");
          at_response := None |}
       (sample_request "tts-1" "nova" (Some "mp3") None None)
     = inr (ErrorBody "logging failed" "invalid_request_error" 500).
Proof.
  split; [| split; [| split]].
  - exact (proj1 (proj1 (endpoint_error_responses no_faults
                           (sample_request "gpt-4" "nova" (Some "mp3") None None))
                    eq_refl) eq_refl).
  - exact (proj1 (proj2 (proj1 (endpoint_error_responses no_faults
                           (sample_request "tts-1" "nova" (Some "wav") None None))
                    eq_refl)) _ eq_refl eq_refl).
  - exact (proj2 (proj2 (proj1 (endpoint_error_responses no_faults
                           (sample_request "tts-1" "shimmer" (Some "mp3") None None))
                    eq_refl)) _ eq_refl eq_refl eq_refl).
  - exact (proj1 (proj2 (proj2 (endpoint_error_responses
                           {| at_logging := Some (OtherException "RuntimeError" "logging failed");
                              at_response := None |}
                           (sample_request "tts-1" "nova" (Some "mp3") None None)))
                    _ eq_refl eq_refl eq_refl)).
Defined.

(** *** Unknown voice aliases *)

(** A request for the voice "shimmer" in the format "wav": the alias is not
    in the voice map of "tts-1", and the request is refused for its format;
    the error does not name the voice. *)
Lemma unknown_alias_with_bad_format :
  let request := sample_request "tts-1" "shimmer" (Some "wav") None None in
  (exists config,
      dict_get MODEL_CONFIG (model request) = Some config
      /\ dict_mem (voice_map config) (lower (voice request)) = false)
  /\ create_speech no_faults request
     = inl (HTTPException 400 "模型tts-1不支持格式: wav")
  /\ contains (voice request) "模型tts-1不支持格式: wav" = false.
Proof.
  split; [| split; reflexivity].
  eexists. split; reflexivity.
Qed.

(** C9, amended. A request for a supported model whose voice alias is not in
    that model's voice map is refused with status 400 and nothing is asked
    of the provider; the error names the voice when the response format is
    one the model allows, and names the format, which is checked first,
    otherwise. *)
Theorem unknown_alias_rejected (str_float : F64.float -> string) (W : World)
    (F : Faults) (request : TTSParameters) (config : ModelConfig) :
  at_logging F = None ->
  dict_get MODEL_CONFIG (model request) = Some config ->
  dict_mem (voice_map config) (lower (voice request)) = false ->
  (exists detail, create_speech F request = inl (HTTPException 400 detail))
  /\ http_status (create_speech F request) = 400
  /\ serve str_float W F request = ([], Ret tt)
  /\ (opt_str_in (response_format request) (allowed_formats config) = true ->
      create_speech F request
      = inl (HTTPException 400
               ("模型" ++ model request ++ "不支持语音: " ++ voice request)))
  /\ (opt_str_in (response_format request) (allowed_formats config) = false ->
      create_speech F request
      = inl (HTTPException 400
               ("模型" ++ model request ++ "不支持格式: "
                ++ str_opt (response_format request)))).
Proof.
  intros Hf Hm Hv.
  assert (Hcs : create_speech F request
                = inl (HTTPException 400
                         (if opt_str_in (response_format request)
                               (allowed_formats config)
                          then "模型" ++ model request ++ "不支持语音: "
                               ++ voice request
                          else "模型" ++ model request ++ "不支持格式: "
                               ++ str_opt (response_format request)))).
  { apply create_speech_http. unfold create_speech_body.
    rewrite Hf, Hm. cbn [fault].
    destruct (opt_str_in (response_format request) (allowed_formats config));
      cbn [negb]; [rewrite Hv |]; reflexivity. }
  split; [eexists; exact Hcs |].
  split; [rewrite Hcs; reflexivity |].
  split; [unfold serve; rewrite Hcs; reflexivity |].
  split; intros Hfmt; rewrite Hcs, Hfmt; reflexivity.
Qed.

Lemma unknown_alias_rejected_witness :
  let request := sample_request "tts-1" "shimmer" (Some "mp3") None None in
  at_logging no_faults = None
  /\ dict_get MODEL_CONFIG (model request)
     = Some {| quality := "standard"; allowed_formats := ["mp3"];
               voice_map := [ ("alloy", "en-US-GuyNeural");
                              ("echo", "en-US-JennyNeural");
                              ("nova", "zh-CN-YunxiNeural") ] |}
  /\ create_speech no_faults request
     = inl (HTTPException 400 "模型tts-1不支持语音: shimmer")
  /\ serve sample_str_float (sample_world true None) no_faults request
     = ([], Ret tt).
Proof.
  cbv zeta.
  pose proof (unknown_alias_rejected sample_str_float (sample_world true None)
                no_faults
                (sample_request "tts-1" "shimmer" (Some "mp3") None None)
                _ eq_refl eq_refl eq_refl) as (_ & _ & Hserve & Hvoice & _).
  split; [reflexivity | split; [reflexivity | split]].
  - exact (Hvoice eq_refl).
  - exact Hserve.
Defined.

(** *** Voice validation *)

Lemma streaming_response_inv (F : Faults) (request : TTSParameters)
    (g : GeneratorCall) (mt : string) (hs : list (string * string)) :
  create_speech F request = inr (StreamingResponse g mt hs) ->
  exists config,
    dict_get MODEL_CONFIG (model request) = Some config
    /\ opt_str_in (response_format request) (allowed_formats config) = true
    /\ dict_mem (voice_map config) (lower (voice request)) = true
    /\ g = {| g_text := input request; g_config := config;
              g_voice := lower (voice request); g_speed := speed request;
              g_volume := volume request |}
    /\ mt = ("audio/" ++ str_opt (response_format request))%string.
Proof.
  unfold create_speech.
  destruct (create_speech_body F request) as [e | r] eqn:Hb.
  - destruct (is_HTTPException e); [discriminate |].
    destruct (is_Exception e); discriminate.
  - intros H. injection H as ->. revert Hb. unfold create_speech_body.
    destruct (fault (at_logging F)); [discriminate |].
    destruct (dict_get MODEL_CONFIG (model request)) as [config |];
      [| discriminate].
    destruct (opt_str_in (response_format request) (allowed_formats config))
      eqn:Hfmt; [| discriminate].
    destruct (dict_mem (voice_map config) (lower (voice request))) eqn:Hv;
      [| discriminate].
    cbn [negb]. destruct (fault (at_response F)); [discriminate |].
    intros H. injection H as <- <- _.
    exists config. split; [reflexivity |]. repeat split; assumption.
Qed.

Lemma unknown_voice_raises (str_float : F64.float -> string) (W : World)
    (text : string) (config : ModelConfig) (voice : string)
    (speed volume : option F64.float) (voices : list VoiceInfo) :
  list_voices W = inr voices ->
  known_voice voices (real_voice config voice) = false ->
  generate_edge_audio str_float W text config voice speed volume
  = ([ListVoices;
      LogError ("生成失败: " ++ "无效语音: " ++ real_voice config voice)],
     Exc (ValueError ("无效语音: " ++ real_voice config voice))).
Proof.
  intros Hv Hk. unfold generate_edge_audio, open_stream.
  rewrite Hv. cbn [lift bind emit ret app]. rewrite Hk. reflexivity.
Qed.

(** C5, amended. When the resolved voice of a request that the endpoint has
    accepted is not in the catalogue the provider returns, the failure comes
    before the provider's stream object is made and before any chunk is
    handed to the consumer; but it comes inside the generator of the
    streaming response, which the endpoint has returned by then and which is
    sent with the status 200: the failure is not turned into an error
    response.  The generator's only effects are the catalogue request and
    the error log, and the exception leaves it. *)
Theorem unknown_voice_fails_before_synthesis (str_float : F64.float -> string)
    (W : World) (F : Faults) (request : TTSParameters) (g : GeneratorCall)
    (mt : string) (hs : list (string * string)) (voices : list VoiceInfo) :
  create_speech F request = inr (StreamingResponse g mt hs) ->
  list_voices W = inr voices ->
  known_voice voices (real_voice (g_config g) (g_voice g)) = false ->
  let run := serve str_float W F request in
  let failure :=
    ValueError ("无效语音: " ++ real_voice (g_config g) (g_voice g)) in
  dict_get MODEL_CONFIG (model request) = Some (g_config g)
  /\ g_voice g = lower (voice request)
  /\ http_status (create_speech F request) = 200
  /\ run = ([ListVoices; LogError ("生成失败: " ++ str_exn failure)],
            Exc failure)
  /\ yielded (trace run) = []
  /\ existsb is_spawn (trace run) = false
  /\ filter is_provider_call (trace run) = [ListVoices].
Proof.
  intros Hcs Hv Hk run failure.
  destruct (streaming_response_inv _ _ _ _ _ Hcs)
    as (config & Hm & _ & _ & Hg & _).
  assert (Hrun : run = ([ListVoices;
                         LogError ("生成失败: " ++ str_exn failure)],
                        Exc failure)).
  { subst run failure. unfold serve. rewrite Hcs.
    apply (unknown_voice_raises str_float W _ _ _ _ _ voices Hv Hk). }
  split; [rewrite Hg; exact Hm |].
  split; [rewrite Hg; reflexivity |].
  split; [rewrite Hcs; reflexivity |].
  rewrite Hrun. repeat split.
Qed.

Lemma unknown_voice_fails_before_synthesis_witness :
  let request := sample_request "tts-1" "Nova" (Some "mp3")
                   (Some one) (Some two) in
  create_speech no_faults request
  = inr (StreamingResponse
           {| g_text := "hello"; g_config := tts_1; g_voice := "nova";
              g_speed := Some one; g_volume := Some two |}
           "audio/mp3"
           [ ("Content-Disposition", "attachment; filename=speech.mp3");
             ("OpenAI-Processing-Ms", "800") ])
  /\ list_voices foreign_world = inr [ {| ShortName := "fr-FR-HenriNeural" |} ]
  /\ known_voice [ {| ShortName := "fr-FR-HenriNeural" |} ]
       (real_voice tts_1 "nova") = false
  /\ http_status (create_speech no_faults request) = 200
  /\ serve sample_str_float foreign_world no_faults request
     = ([ListVoices; LogError "生成失败: 无效语音: zh-CN-YunxiNeural"],
        Exc (ValueError "无效语音: zh-CN-YunxiNeural")).
Proof.
  cbv zeta.
  assert (Hcs : create_speech no_faults
                  (sample_request "tts-1" "Nova" (Some "mp3")
                     (Some one) (Some two))
                = inr (StreamingResponse
                         {| g_text := "hello"; g_config := tts_1;
                            g_voice := "nova"; g_speed := Some one;
                            g_volume := Some two |}
                         "audio/mp3"
                         [ ("Content-Disposition",
                            "attachment; filename=speech.mp3");
                           ("OpenAI-Processing-Ms", "800") ]))
    by reflexivity.
  assert (Hv : list_voices foreign_world
               = inr [ {| ShortName := "fr-FR-HenriNeural" |} ])
    by reflexivity.
  assert (Hk : known_voice [ {| ShortName := "fr-FR-HenriNeural" |} ]
                 (real_voice tts_1 "nova") = false)
    by reflexivity.
  pose proof (unknown_voice_fails_before_synthesis sample_str_float
                foreign_world no_faults
                (sample_request "tts-1" "Nova" (Some "mp3")
                   (Some one) (Some two))
                {| g_text := "hello"; g_config := tts_1; g_voice := "nova";
                   g_speed := Some one; g_volume := Some two |}
                "audio/mp3"
                [ ("Content-Disposition", "attachment; filename=speech.mp3");
                  ("OpenAI-Processing-Ms", "800") ]
                [ {| ShortName := "fr-FR-HenriNeural" |} ]
                Hcs Hv Hk) as (_ & _ & Hstatus & Hrun & _).
  split; [exact Hcs |]. split; [exact Hv |]. split; [exact Hk |].
  split; [exact Hstatus | exact Hrun].
Defined.

(** A request for a voice of the model table that the provider's catalogue
    lacks: the endpoint accepts it and answers with a streaming response,
    status 200; the failure is raised afterwards, inside the generator of
    the response's body. *)
Lemma unknown_voice_is_answered_with_200 :
  let request := sample_request "tts-1" "nova" (Some "mp3")
                   (Some one) (Some one) in
  well_formed request = true
  /\ list_voices foreign_world = inr [ {| ShortName := "fr-FR-HenriNeural" |} ]
  /\ known_voice [ {| ShortName := "fr-FR-HenriNeural" |} ]
       (real_voice tts_1 (lower (voice request))) = false
  /\ create_speech no_faults request
     = inr (StreamingResponse
              {| g_text := "hello"; g_config := tts_1; g_voice := "nova";
                 g_speed := Some one; g_volume := Some one |}
              "audio/mp3"
              [ ("Content-Disposition", "attachment; filename=speech.mp3");
                ("OpenAI-Processing-Ms", "800") ])
  /\ http_status (create_speech no_faults request) = 200
  /\ serve sample_str_float foreign_world no_faults request
     = ([ListVoices; LogError "生成失败: 无效语音: zh-CN-YunxiNeural"],
        Exc (ValueError "无效语音: zh-CN-YunxiNeural")).
Proof. cbv zeta. repeat split. Qed.

(** *** The filter's command line *)

(** Every model of the table allows the format "mp3" only. *)
Lemma allowed_format_is_mp3 (m : string) (config : ModelConfig)
    (fmt : option string) :
  dict_get MODEL_CONFIG m = Some config ->
  opt_str_in fmt (allowed_formats config) = true ->
  fmt = Some "mp3".
Proof.
  intros Hm Hfmt.
  assert (Ha : allowed_formats config = ["mp3"]).
  { revert Hm. unfold MODEL_CONFIG. cbn [dict_get].
    destruct (String.eqb m "tts-1"); [intros [= <-]; reflexivity |].
    destruct (String.eqb m "tts-1-hd"); [intros [= <-]; reflexivity |].
    discriminate. }
  rewrite Ha in Hfmt. destruct fmt as [s |]; [| discriminate].
  cbn [opt_str_in existsb] in Hfmt. rewrite orb_false_r in Hfmt.
  apply String.eqb_eq in Hfmt. congruence.
Qed.





(** *** The filtered path *)

Lemma read_loop_yields_bound (W : World) (reads : list ReadResult) (i n : nat) :
  closes_at W = Some n -> (i <= n)%nat ->
  (length (yielded (trace (read_loop W reads i))) <= S n - i)%nat.
Proof.
  intros Hc. revert i. induction reads as [| r rest IH]; intros i Hi.
  - cbn [read_loop]. rewrite trace_bind_emit. cbn [yielded trace blocked fst length]. lia.
  - destruct r as [chunk | e]; cbn [read_loop]; rewrite trace_bind_emit;
      cbn [yielded]; [| cbn [trace raise fst yielded length]; lia].
    destruct chunk as [| b chunk']; [cbn [trace ret fst yielded length]; lia |].
    rewrite trace_bind, yield_run, Hc. cbn [trace outcome fst snd app yielded].
    destruct (Nat.eqb_spec n i) as [-> | Hne]; cbn [length].
    + cbn [length app yielded]. lia.
    + specialize (IH (S i) ltac:(lia)). cbn [length app yielded]. lia.
Qed.

(** The writer task never leaves the reading path waiting: cancelled or
    not, awaiting it comes back. *)
Lemma joined_writer_never_blocks (communicate : Stream)
    (stdin : option StdinPipe) :
  joined (outcome (write_audio communicate stdin)) <> Blocked.
Proof.
  destruct (write_audio_outcome communicate stdin) as [-> | (e & -> & _ & _)];
    [discriminate |].
  cbn [joined]. destruct (is_CancelledError e); discriminate.
Qed.

Lemma join_never_blocks (W : World) (communicate : Stream)
    (sink : option StdinPipe) :
  joined (outcome (await_task W (write_audio communicate sink))) <> Blocked.
Proof.
  rewrite await_task_run. cbn [outcome snd].
  destruct (suspended W (write_audio communicate sink)).
  - cbn [joined].
    destruct (is_CancelledError
                match join_raises W with
                | Some e => e
                | None => CancelledError
                end); discriminate.
  - apply joined_writer_never_blocks.
Qed.

(** Awaiting the cancelled writer comes back without an exception when the
    task returned or ended cancelled, a cancellation of the request's own
    task at that [await] included. *)
Lemma join_returns (W : World) (writer_task : M unit) :
  join_raises W = None \/ join_raises W = Some CancelledError ->
  outcome writer_task = Ret tt \/ outcome writer_task = Exc CancelledError ->
  joined (outcome (await_task W writer_task)) = Ret tt.
Proof.
  intros Hj Hw. rewrite await_task_run. cbn [outcome snd].
  destruct (suspended W writer_task).
  - destruct Hj as [-> | ->]; reflexivity.
  - destruct Hw as [-> | ->]; reflexivity.
Qed.






Lemma no_kill_in_loop_events (l : list Event) :
  forallb is_loop_event l = true -> existsb is_kill l = false.
Proof.
  induction l as [| ev l IH]; [reflexivity |].
  cbn [forallb existsb]. intros H. apply andb_prop in H as [Hev Hl].
  rewrite (IH Hl). destruct ev; try discriminate; reflexivity.
Qed.

Lemma no_kill_in_error_log (o : Outcome unit) :
  existsb is_kill (error_log o) = false.
Proof.
  destruct o as [[] | e |]; try reflexivity.
  cbn [error_log]. destruct (is_Exception e); reflexivity.
Qed.


(** *** Tasks and their cancellation *)



Lemma loop_events_no_cancel (l : list Event) :
  forallb is_loop_event l = true -> existsb is_cancel l = false.
Proof.
  induction l as [| ev l IH]; [reflexivity |].
  cbn [forallb existsb]. intros H. apply andb_prop in H as [Hev Hl].
  rewrite (IH Hl). destruct ev; try discriminate; reflexivity.
Qed.


Lemma error_log_no_cancel (o : Outcome unit) :
  existsb is_cancel (error_log o) = false.
Proof.
  destruct o as [[] | e |]; try reflexivity.
  cbn [error_log]. destruct (is_Exception e); reflexivity.
Qed.


(** It stops at an [await]. *)
Lemma upto_await_last (k : nat) (t p : list Event) :
  upto_await k t = Some p ->
  exists q ev, p = q ++ [ev] /\ is_await ev = true.
Proof.
  revert k p. induction t as [| ev t IH]; intros k p; [discriminate |].
  cbn [upto_await]. destruct (is_await ev) eqn:Hev.
  - destruct k as [| k'].
    + intros [= <-]. exists [], ev. split; [reflexivity | exact Hev].
    + destruct (upto_await k' t) as [q |] eqn:E; [| discriminate].
      intros [= <-]. destruct (IH _ _ E) as (q' & ev' & -> & Hev').
      exists (ev :: q'), ev'. split; [reflexivity | exact Hev'].
  - destruct (upto_await k t) as [q |] eqn:E; [| discriminate].
    intros [= <-]. destruct (IH _ _ E) as (q' & ev' & -> & Hev').
    exists (ev :: q'), ev'. split; [reflexivity | exact Hev'].
Qed.





Section Filtered.

Variable str_float : F64.float -> string.
Variables (W : World) (text : string) (config : ModelConfig) (voice : string).
Variables (speed volume : option F64.float).
Variables (t : list Event) (communicate : Stream) (f : Filter).

Hypothesis Hopen :
  open_stream W text config voice speed = (t, Ret communicate).
Hypothesis Hneeds : needs_filter volume = true.
Hypothesis Hspawn : spawn W (ffmpeg_cmd str_float volume) = inr f.

Local Notation loop := (read_loop W (f_stdout f) 0).
Local Notation writer := (write_audio communicate (Some (f_stdin f))).
Local Notation run :=
  (generate_edge_audio str_float W text config voice speed volume).
Local Notation started :=
  (t ++ [SubprocessExec (ffmpeg_cmd str_float volume) PIPE PIPE PIPE;
         CreateTask writer]).
Local Notation join := (joined (outcome (await_task W writer))).

Lemma filtered_blocked_in_loop :
  outcome loop = Blocked -> run = (started ++ trace loop, Blocked).
Proof.
  intros Hb.
  rewrite (generate_filtered_run str_float _ _ _ _ _ _ _ _ _ Hopen Hneeds Hspawn).
  cbv zeta. rewrite (filtered_run W (piped f) _ (f_stdout f) eq_refl).
  rewrite Hb. rewrite (surjective_run loop), Hb.
  cbn [trace outcome fst snd error_log]. rewrite app_nil_r, <- app_assoc.
  reflexivity.
Qed.

Lemma filtered_after_loop :
  outcome loop <> Blocked ->
  run = (started ++ trace loop
           ++ [StdinClose; ProcWait]
           ++ after_wait (f_wait f)
           ++ error_log (outcome run),
         match f_wait f with
         | Exited => match join with
                     | Ret _ => outcome loop
                     | o => o
                     end
         | NeverExits => Blocked
         | WaitRaises e => Exc e
         end).
Proof.
  intros Hb.
  rewrite (generate_filtered_run str_float _ _ _ _ _ _ _ _ _ Hopen Hneeds Hspawn).
  cbv zeta. rewrite (filtered_run W (piped f) _ (f_stdout f) eq_refl).
  rewrite cleanup_run.
  cbn [piped stdin wait trace outcome fst snd].
  destruct (outcome loop) as [[] | e |] eqn:Hl; [| | congruence];
    cbn [trace outcome fst snd app];
    destruct (f_wait f) as [| | e0]; cbn [after_wait app];
    rewrite <- ?app_assoc; cbn [app];
    try reflexivity;
    destruct join as [[] | e' |]; reflexivity.
Qed.

Lemma started_events :
  exists rate,
    started = [ListVoices; NewCommunicate text (real_voice config voice) rate;
               SubprocessExec (ffmpeg_cmd str_float volume) PIPE PIPE PIPE;
               CreateTask writer].
Proof.
  destruct (open_stream_returns _ _ _ _ _ _ _ Hopen)
    as (voices & speed' & rate & _ & _ & _ & _ & _ & Ht).
  exists rate. rewrite Ht. reflexivity.
Qed.

(** The effects of a run of the filtered path, whichever way it goes. *)
Lemma filtered_trace :
  trace run
  = started ++ trace loop
      ++ match outcome loop with
         | Blocked => []
         | _ => [StdinClose; ProcWait] ++ after_wait (f_wait f)
         end
      ++ error_log (outcome run).
Proof.
  destruct (outcome loop) as [[] | e |] eqn:Hl.
  - rewrite filtered_after_loop at 1 by congruence. cbn [trace fst].
    rewrite <- !app_assoc. reflexivity.
  - rewrite filtered_after_loop at 1 by congruence. cbn [trace fst].
    rewrite <- !app_assoc. reflexivity.
  - rewrite (filtered_blocked_in_loop Hl). cbn [trace outcome fst snd error_log app].
    rewrite app_nil_r. reflexivity.
Qed.

Lemma filtered_yields : yielded (trace run) = yielded (trace loop).
Proof.
  destruct started_events as (rate & Hst).
  rewrite filtered_trace, Hst, !yielded_app, yielded_error_log.
  cbn [yielded app]. rewrite app_nil_r.
  destruct (outcome loop); [| | rewrite app_nil_r; reflexivity];
    destruct (f_wait f); cbn [after_wait yielded app];
    rewrite app_nil_r; reflexivity.
Qed.


Lemma filtered_cancels :
  existsb is_cancel (trace run)
  = match outcome loop, f_wait f with
    | Blocked, _ => false
    | _, Exited => true
    | _, _ => false
    end.
Proof.
  destruct started_events as (rate & Hst).
  rewrite filtered_trace, Hst, !existsb_app, error_log_no_cancel.
  rewrite (loop_events_no_cancel _ (read_loop_events W (f_stdout f) 0)).
  cbn [existsb is_cancel orb]. rewrite orb_false_r.
  destruct (outcome loop); [| | reflexivity];
    destruct (f_wait f); reflexivity.
Qed.

Lemma filtered_no_kill : existsb is_kill (trace run) = false.
Proof.
  destruct started_events as (rate & Hst).
  rewrite filtered_trace, Hst, !existsb_app, no_kill_in_error_log.
  rewrite (no_kill_in_loop_events _ (read_loop_events W (f_stdout f) 0)).
  cbn [existsb is_kill orb]. rewrite orb_false_r.
  destruct (outcome loop); [| | reflexivity];
    destruct (f_wait f); reflexivity.
Qed.





(** C3, amended. Once the filter is started, the generator reads and yields
    until the loop is left: by the end of the filter's output, by the
    consumer closing the generator, or by an exception at a read (a
    cancellation among them); a failure of the provider's stream is not a
    way out of the loop, it stays in the writer task.  Whichever way the
    loop is left, the generator closes the filter's input and waits for the
    process; it cancels the writer task and awaits it if and only if that
    wait returns, and then swallows the cancellation that the [await]
    raises, be it the writer's or the request's own.  While a read or the
    wait is pending the writer is not cancelled.  Nothing is yielded after
    the loop is left, and a consumer that closes at its [n]-th [yield] has
    received no more than [n + 1] chunks. *)
Theorem filtered_cleanup_order :
  forallb is_loop_event (trace loop) = true
  /\ (outcome loop = Blocked -> run = (started ++ trace loop, Blocked))
  /\ (outcome loop <> Blocked ->
      trace run
      = started ++ trace loop
          ++ [StdinClose; ProcWait]
          ++ match f_wait f with
             | Exited => [TaskCancel; TaskAwait]
             | _ => []
             end
          ++ error_log (outcome run))
  /\ (existsb is_cancel (trace run) = true
      <-> outcome loop <> Blocked /\ f_wait f = Exited)
  /\ (outcome loop <> Blocked -> f_wait f = Exited ->
      join_raises W = None \/ join_raises W = Some CancelledError ->
      outcome writer = Ret tt \/ outcome writer = Exc CancelledError ->
      outcome run = outcome loop)
  /\ (forall e, outcome writer = Exc e -> is_Exception e = false)
  /\ yielded (trace run) = yielded (trace loop)
  /\ (forall n, closes_at W = Some n ->
      (length (yielded (trace run)) <= S n)%nat).
Proof.
  split; [apply read_loop_events |].
  split; [apply filtered_blocked_in_loop |].
  split; [intros Hb; rewrite (filtered_after_loop Hb) at 1; reflexivity |].
  split; [| split; [| split; [| split; [exact filtered_yields |]]]].
  - rewrite filtered_cancels. split.
    + destruct (outcome loop); destruct (f_wait f); try discriminate;
        intros _; split; congruence.
    + intros [Hb Hw]. rewrite Hw.
      destruct (outcome loop); [reflexivity | reflexivity | congruence].
  - intros Hb Hex Hj Hw. rewrite (filtered_after_loop Hb). cbn [outcome snd].
    rewrite Hex, (join_returns W writer Hj Hw). reflexivity.
  - intros e He.
    destruct (write_audio_outcome communicate (Some (f_stdin f)))
      as [Hr | (e' & Hr & _ & Hn)]; rewrite Hr in He; congruence.
  - intros n Hc. rewrite filtered_yields.
    pose proof (read_loop_yields_bound W (f_stdout f) 0 n Hc (Nat.le_0_l n)).
    lia.
Qed.

(** C1, amended. Once the filter is started, every way out of the reading
    loop closes the filter's input and then waits for the process to exit,
    without any bound on the wait; the process is never killed.  A process
    that does not exit keeps the generator suspended in the wait, until the
    request's task is cancelled there, if it ever is: the generator then
    ends with that cancellation, the process still running.  Only a wait
    that returned tells that the process has exited. *)
Theorem filter_exit_is_awaited_without_bound :
  existsb is_kill (trace run) = false
  /\ (outcome loop <> Blocked ->
      exists after,
        trace run = started ++ trace loop ++ StdinClose :: ProcWait :: after)
  /\ (outcome loop <> Blocked -> f_wait f = NeverExits ->
      run = (started ++ trace loop ++ [StdinClose; ProcWait], Blocked))
  /\ (forall e, outcome loop <> Blocked -> f_wait f = WaitRaises e ->
      run = (started ++ trace loop ++ [StdinClose; ProcWait]
               ++ error_log (Exc e),
             Exc e))
  /\ (outcome loop <> Blocked -> f_wait f = Exited -> outcome run <> Blocked)
  /\ (outcome run <> Blocked ->
      f_wait f = Exited
      \/ exists e, f_wait f = WaitRaises e /\ outcome run = Exc e).
Proof.
  split; [exact filtered_no_kill |].
  split; [| split; [| split; [| split]]].
  - intros Hb.
    exists (after_wait (f_wait f) ++ error_log (outcome run)).
    rewrite (filtered_after_loop Hb) at 1. reflexivity.
  - intros Hb Hex.
    assert (Ho : outcome run = Blocked).
    { rewrite (filtered_after_loop Hb). cbn [outcome snd]. rewrite Hex.
      reflexivity. }
    rewrite (surjective_run run), Ho. f_equal.
    rewrite (filtered_after_loop Hb) at 1. cbn [trace fst].
    rewrite Hex, Ho. cbn [after_wait error_log app]. reflexivity.
  - intros e Hb Hex.
    assert (Ho : outcome run = Exc e).
    { rewrite (filtered_after_loop Hb). cbn [outcome snd]. rewrite Hex.
      reflexivity. }
    rewrite (surjective_run run), Ho. f_equal.
    rewrite (filtered_after_loop Hb) at 1. cbn [trace fst].
    rewrite Hex, Ho. cbn [after_wait app]. reflexivity.
  - intros Hb Hex. rewrite (filtered_after_loop Hb). cbn [outcome snd].
    rewrite Hex.
    pose proof (join_never_blocks W communicate (Some (f_stdin f))) as Hj.
    destruct join as [[] | e' |]; congruence.
  - intros Hrun. destruct (outcome loop) as [[] | e |] eqn:Hl.
    + rewrite filtered_after_loop in Hrun |- * by congruence.
      cbn [outcome snd] in *.
      destruct (f_wait f) as [| | e0];
        [left; reflexivity | congruence | right; exists e0; split; reflexivity].
    + rewrite filtered_after_loop in Hrun |- * by congruence.
      cbn [outcome snd] in *.
      destruct (f_wait f) as [| | e0];
        [left; reflexivity | congruence | right; exists e0; split; reflexivity].
    + rewrite (filtered_blocked_in_loop Hl) in Hrun.
      cbn [outcome snd] in Hrun. congruence.
Qed.


End Filtered.

(** *** The filter and its input *)


(** *** Runs on the sample worlds *)

Lemma direct_path_streams_audio_witness :
  needs_filter (Some one) = false
  /\ open_stream (sample_world true None) "hello" tts_1 "nova" (Some one)
     = ([ListVoices; NewCommunicate "hello" "zh-CN-YunxiNeural" "+0%"],
        Ret sample_stream)
  /\ closes_at (sample_world true None) = None
  /\ existsb is_spawn
       (trace (generate_edge_audio sample_str_float (sample_world true None)
                 "hello" tts_1 "nova" (Some one) (Some one))) = false
  /\ yielded
       (trace (generate_edge_audio sample_str_float (sample_world true None)
                 "hello" tts_1 "nova" (Some one) (Some one)))
     = [audio_a; audio_b].
Proof.
  pose proof (direct_path_streams_audio sample_str_float
                (sample_world true None) "hello" tts_1 "nova" (Some one)
                (Some one) eq_refl) as (Hspawn & Hout & _).
  split; [reflexivity | split; [reflexivity | split; [reflexivity |]]].
  split; [exact Hspawn |].
  exact (proj1 (proj1 (Hout _ _ eq_refl) eq_refl)).
Defined.


Lemma filtered_cleanup_order_witness :
  let W := early_close_world in
  let run := generate_edge_audio sample_str_float W "hello" tts_1 "nova"
               (Some one) (Some two) in
  open_stream W "hello" tts_1 "nova" (Some one)
  = ([ListVoices; NewCommunicate "hello" "zh-CN-YunxiNeural" "+0%"],
     Ret sample_stream)
  /\ needs_filter (Some two) = true
  /\ spawn W (ffmpeg_cmd sample_str_float (Some two)) = inr (sample_filter true)
  /\ outcome (read_loop W (f_stdout (sample_filter true)) 0) = Exc GeneratorExit
  /\ trace run
     = [ ListVoices; NewCommunicate "hello" "zh-CN-YunxiNeural" "+0%";
         SubprocessExec
           ["ffmpeg"; "-i"; "pipe:0"; "-af"; "volume=2.0"; "-f"; "mp3";
            "-loglevel"; "quiet"; "pipe:1"] PIPE PIPE PIPE;
         CreateTask (write_audio sample_stream (Some sound_pipe));
         StdoutRead 4096; Yield filtered_a;
         StdinClose; ProcWait; TaskCancel; TaskAwait ]
  /\ outcome run = Exc GeneratorExit
  /\ task_events W (trace run) = [StreamNext; StdinWrite audio_a; StdinDrain].
Proof.
  cbv zeta.
  pose proof (filtered_cleanup_order sample_str_float
                early_close_world "hello" tts_1 "nova"
                (Some one) (Some two)
                [ListVoices; NewCommunicate "hello" "zh-CN-YunxiNeural" "+0%"]
                sample_stream (sample_filter true) eq_refl eq_refl eq_refl)
    as (_ & _ & Hafter & _ & Hout & _).
  split; [reflexivity | split; [reflexivity | split; [reflexivity |]]].
  split; [reflexivity |].
  split; [exact (Hafter ltac:(discriminate)) |].
  split; [| reflexivity].
  exact (Hout ltac:(discriminate) eq_refl (or_introl eq_refl)
           (or_introl eq_refl)).
Defined.

(** The loop has come to its end beside a filter that does not exit: the
    generator has closed the filter's input and waits; the writer task is
    neither cancelled nor awaited. *)
Lemma stuck_filter_leaves_writer_uncancelled :
  let request := sample_request "tts-1" "nova" (Some "mp3")
                   (Some one) (Some two) in
  let W := sample_world false None in
  let run := serve sample_str_float W no_faults request in
  well_formed request = true
  /\ outcome (read_loop W (f_stdout (sample_filter false)) 0) = Ret tt
  /\ run
     = ([ ListVoices; NewCommunicate "hello" "zh-CN-YunxiNeural" "+0%";
          SubprocessExec
            ["ffmpeg"; "-i"; "pipe:0"; "-af"; "volume=2.0"; "-f"; "mp3";
             "-loglevel"; "quiet"; "pipe:1"] PIPE PIPE PIPE;
          CreateTask (write_audio sample_stream (Some sound_pipe));
          StdoutRead 4096; Yield filtered_a;
          StdoutRead 4096; Yield filtered_b;
          StdoutRead 4096;
          StdinClose; ProcWait ],
        Blocked)
  /\ existsb is_cancel (trace run) = false.
Proof. cbv zeta. repeat split. Qed.

Lemma filter_exit_is_awaited_without_bound_witness :
  let t := [ListVoices; NewCommunicate "hello" "zh-CN-YunxiNeural" "+0%"] in
  let started :=
    [ ListVoices; NewCommunicate "hello" "zh-CN-YunxiNeural" "+0%";
      SubprocessExec
        ["ffmpeg"; "-i"; "pipe:0"; "-af"; "volume=2.0"; "-f"; "mp3";
         "-loglevel"; "quiet"; "pipe:1"] PIPE PIPE PIPE;
      CreateTask (write_audio sample_stream (Some sound_pipe)) ] in
  (open_stream (sample_world false (Some 0%nat)) "hello" tts_1 "nova" (Some one)
   = (t, Ret sample_stream)
   /\ needs_filter (Some two) = true
   /\ spawn (sample_world false (Some 0%nat))
        (ffmpeg_cmd sample_str_float (Some two))
      = inr (sample_filter false)
   /\ generate_edge_audio sample_str_float (sample_world false (Some 0%nat))
        "hello" tts_1 "nova" (Some one) (Some two)
      = (started ++ [StdoutRead 4096; Yield filtered_a; StdinClose; ProcWait],
         Blocked))
  /\ (open_stream cancelled_wait_world "hello" tts_1 "nova" (Some one)
      = (t, Ret sample_stream)
      /\ generate_edge_audio sample_str_float cancelled_wait_world
           "hello" tts_1 "nova" (Some one) (Some two)
         = (started ++ [StdoutRead 4096; Yield filtered_a;
                        StdoutRead 4096; Yield filtered_b;
                        StdoutRead 4096; StdinClose; ProcWait],
            Exc CancelledError)).
Proof.
  cbv zeta.
  pose proof (filter_exit_is_awaited_without_bound sample_str_float
                (sample_world false (Some 0%nat)) "hello" tts_1 "nova"
                (Some one) (Some two)
                [ListVoices; NewCommunicate "hello" "zh-CN-YunxiNeural" "+0%"]
                sample_stream (sample_filter false) eq_refl eq_refl eq_refl)
    as (_ & _ & Hstuck & _).
  pose proof (filter_exit_is_awaited_without_bound sample_str_float
                cancelled_wait_world "hello" tts_1 "nova"
                (Some one) (Some two)
                [ListVoices; NewCommunicate "hello" "zh-CN-YunxiNeural" "+0%"]
                sample_stream
                {| f_stdin := sound_pipe;
                   f_stdout := [ReadBytes filtered_a; ReadBytes filtered_b;
                                ReadBytes []];
                   f_wait := WaitRaises CancelledError |}
                eq_refl eq_refl eq_refl)
    as (_ & _ & _ & Hcancelled & _).
  split.
  - split; [reflexivity | split; [reflexivity | split; [reflexivity |]]].
    exact (Hstuck ltac:(discriminate) eq_refl).
  - split; [reflexivity |].
    exact (Hcancelled CancelledError ltac:(discriminate) eq_refl).
Defined.

(** A filter that does not exit once its input is closed: the consumer has
    left after the first chunk, the generator has closed the filter's input
    and waits; the wait never returns and nothing kills the process. *)
Lemma stuck_filter_is_never_killed :
  let request := sample_request "tts-1" "nova" (Some "mp3")
                   (Some one) (Some two) in
  let run := serve sample_str_float (sample_world false (Some 0%nat))
               no_faults request in
  well_formed request = true
  /\ needs_filter (volume request) = true
  /\ existsb is_spawn (trace run) = true
  /\ last (trace run) ListVoices = ProcWait
  /\ outcome run = Blocked
  /\ existsb is_kill (trace run) = false.
Proof. cbv zeta. repeat split. Qed.



(** A writer that failed has not closed the filter's input: the call to
    [stdin.close()] sits in the [try] block, after the loop. *)
Lemma failed_writer_leaves_input_open :
  existsb (fun ev => match ev with StdinClose => true | _ => false end)
    (trace (write_audio failing_stream (Some sound_pipe))) = false.
Proof. reflexivity. Qed.

(** *** The rate for a slow speed *)

(** C7, at the request [speed = 0.5] for "tts-1": the rate handed to the
    provider is the text [+-50%]. *)
Theorem half_speed_rate_is_malformed :
  let request := sample_request "tts-1" "alloy" (Some "mp3")
                   (Some (F64.lit 5 10)) (Some one) in
  well_formed request = true
  /\ rate_of (speed request) = inr "+-50%"
  /\ nth_error (trace (serve sample_str_float (sample_world true None)
                         no_faults request)) 1
     = Some (NewCommunicate "hello" "en-US-GuyNeural" "+-50%").
Proof. cbv zeta. repeat split. Qed.

Example rate_of_fast_speed : rate_of (Some (F64.lit 13 10)) = inr "+30%".
Proof. reflexivity. Qed.

Example rate_of_unit_speed : rate_of (Some one) = inr "+0%".
Proof. reflexivity. Qed.

Example rate_of_clamped_low :
  clamp_speed {| quality := "enhanced"; allowed_formats := ["mp3"];
                 voice_map := [] |} (Some (F64.lit 5 10))
  = inr (Some (F64.lit 8 10))
  /\ rate_of (Some (F64.lit 8 10)) = inr "+-19%".
Proof. split; reflexivity. Qed.

Example rate_of_clamped_high :
  clamp_speed {| quality := "enhanced"; allowed_formats := ["mp3"];
                 voice_map := [] |} (Some two)
  = inr (Some (F64.lit 15 10))
  /\ rate_of (Some (F64.lit 15 10)) = inr "+50%".
Proof. split; reflexivity. Qed.

Example rate_of_speed_1_2 : rate_of (Some (F64.lit 12 10)) = inr "+19%".
Proof. reflexivity. Qed.

(** ** Further properties of the code *)

(** *** The writer task, further *)



Lemma count_app (p : Event -> bool) (a b : list Event) :
  count p (a ++ b) = (count p a + count p b)%nat.
Proof. unfold count. rewrite filter_app, length_app. reflexivity. Qed.

Lemma count_none (p : Event -> bool) (l : list Event) :
  existsb p l = false -> count p l = 0%nat.
Proof.
  unfold count. induction l as [| ev l IH]; [reflexivity |].
  cbn [existsb filter]. destruct (p ev); [discriminate |].
  cbn [orb]. exact IH.
Qed.

(** X2. The writer task closes the filter's input once, and only when the
    whole stream was fed without failure: after a failed write or a failure
    of the provider's stream (or a cancellation) it ends without having
    closed it. *)
Theorem writer_closes_only_on_success (communicate : Stream)
    (pipe : StdinPipe) :
  count is_close (trace (write_audio communicate (Some pipe)))
  = match outcome (write_chunks (Some pipe) (chunks communicate) 0),
          ending communicate with
    | Ret _, None => 1%nat
    | _, _ => 0%nat
    end.
Proof.
  destruct (write_audio_trace communicate (Some pipe)) as (log & Ht & _ & Hc).
  rewrite Ht, count_app, (count_none _ _ Hc), Nat.add_0_r.
  unfold write_audio_body. rewrite trace_bind, count_app.
  rewrite (count_none _ _ (write_chunks_never_closes _ _ _)).
  destruct (outcome (write_chunks (Some pipe) (chunks communicate) 0));
    try reflexivity.
  unfold stream_end. rewrite trace_bind, bind_emit.
  cbn [trace outcome fst snd]. rewrite count_app.
  destruct (ending communicate); cbn [trace outcome raise ret fst snd];
    try reflexivity.
  rewrite !bind_emit. cbn [trace fst].
  destruct (wait_closed pipe); reflexivity.
Qed.

(** X3. A cancellation that reaches the writer task while it waits for the
    provider's next chunk is not swallowed by its handler: the task ends
    with [CancelledError], logs nothing and leaves the filter's input
    open. *)
Theorem writer_cancellation_passes (communicate : Stream) (pipe : StdinPipe) :
  (forall k, drain pipe k = None) ->
  ending communicate = Some CancelledError ->
  write_audio communicate (Some pipe)
  = (trace (write_chunks (Some pipe) (chunks communicate) 0) ++ [StreamNext],
     Exc CancelledError)
  /\ count is_log (trace (write_audio communicate (Some pipe))) = 0%nat
  /\ count is_close (trace (write_audio communicate (Some pipe))) = 0%nat.
Proof.
  intros Hd He.
  pose proof (write_chunks_drains_ok pipe (chunks communicate) 0 Hd) as Hw.
  assert (Hrun : write_audio communicate (Some pipe)
                 = (trace (write_chunks (Some pipe) (chunks communicate) 0)
                      ++ [StreamNext], Exc CancelledError)).
  { unfold write_audio, try_except, write_audio_body, stream_end.
    rewrite (surjective_run (write_chunks (Some pipe) (chunks communicate) 0)),
      Hw, He.
    reflexivity. }
  split; [exact Hrun |]. split.
  - rewrite Hrun. cbn [trace fst]. rewrite count_app.
    assert (Hn : forall cs k,
               existsb is_log (trace (write_chunks (Some pipe) cs k)) = false).
    { induction cs as [| c rest IH]; intros k; [reflexivity |].
      cbn [write_chunks]. rewrite bind_emit. cbn [trace fst existsb is_log orb].
      destruct (String.eqb (ctype c) "audio"); [| apply IH].
      rewrite bind_emit. cbn [trace fst existsb is_log orb].
      unfold await_drain. rewrite bind_emit.
      destruct (drain pipe k); [reflexivity |].
      cbn [bind ret trace outcome fst snd app].
      rewrite (surjective_run (write_chunks (Some pipe) rest (S k))).
      cbn [trace fst existsb is_log orb]. apply IH. }
    rewrite (count_none _ _ (Hn _ _)). reflexivity.
  - rewrite Hrun. cbn [trace fst]. rewrite count_app.
    rewrite (count_none _ _ (write_chunks_never_closes _ _ _)). reflexivity.
Qed.

Lemma writer_cancellation_passes_witness :
  (forall k, drain sound_pipe k = None)
  /\ write_audio {| chunks := sample_chunks; ending := Some CancelledError |}
       (Some sound_pipe)
     = ([StreamNext; StdinWrite audio_a; StdinDrain; StreamNext;
         StreamNext; StdinWrite audio_b; StdinDrain; StreamNext],
        Exc CancelledError).
Proof.
  split; [reflexivity |].
  exact (proj1 (writer_cancellation_passes
                  {| chunks := sample_chunks; ending := Some CancelledError |}
                  sound_pipe (fun _ => eq_refl) eq_refl)).
Defined.

(** X4. Without an input to write to ([stdin is None]) the writer task only
    drains the provider's stream: it writes nothing, closes nothing, and on
    exhaustion returns after one step of the stream per chunk and one
    more. *)
Theorem writer_without_input (communicate : Stream) :
  written (trace (write_audio communicate None)) = []
  /\ count is_close (trace (write_audio communicate None)) = 0%nat
  /\ (ending communicate = None ->
      write_audio communicate None
      = (repeat StreamNext (S (length (chunks communicate))), Ret tt)).
Proof.
  assert (Hc : forall cs k,
             write_chunks None cs k = (repeat StreamNext (length cs), Ret tt)).
  { induction cs as [| c rest IH]; intros k; [reflexivity |].
    cbn [write_chunks]. rewrite bind_emit, IH. reflexivity. }
  assert (Hb : write_audio_body communicate None
               = (repeat StreamNext (length (chunks communicate))
                    ++ [StreamNext],
                  match ending communicate with
                  | Some e => Exc e
                  | None => Ret tt
                  end)).
  { unfold write_audio_body, stream_end. rewrite Hc.
    destruct (ending communicate); reflexivity. }
  assert (Hrep : forall n, repeat StreamNext n ++ [StreamNext]
                           = repeat StreamNext (S n)).
  { induction n as [| n IHn]; [reflexivity |].
    cbn [repeat app]. rewrite IHn. reflexivity. }
  assert (Hw : forall n, written (repeat StreamNext n) = []).
  { induction n as [| n IHn]; [reflexivity | exact IHn]. }
  assert (Hcl : forall n, count is_close (repeat StreamNext n) = 0%nat).
  { induction n as [| n IHn]; [reflexivity | exact IHn]. }
  destruct (write_audio_trace communicate None) as (log & Ht & Hlw & Hlc).
  rewrite Ht, Hb. cbn [trace fst]. rewrite Hrep.
  split; [rewrite written_app, Hw, Hlw; reflexivity |].
  split; [rewrite count_app, Hcl, (count_none _ _ Hlc); reflexivity |].
  intros He. unfold write_audio, try_except. rewrite Hb, He, Hrep. reflexivity.
Qed.

Lemma writer_without_input_witness :
  ending sample_stream = None
  /\ write_audio sample_stream None
     = ([StreamNext; StreamNext; StreamNext; StreamNext], Ret tt).
Proof.
  split; [reflexivity |].
  exact (proj2 (proj2 (writer_without_input sample_stream)) eq_refl).
Defined.

(** *** [read_audio] *)

Lemma read_loop_nonempty (W : World) (reads : list ReadResult) (i : nat) :
  Forall (fun b => b <> []) (yielded (trace (read_loop W reads i))).
Proof.
  revert i. induction reads as [| r rest IH]; intros i.
  - constructor.
  - destruct r as [chunk | e]; cbn [read_loop]; rewrite bind_emit;
      cbn [trace fst yielded]; [| constructor].
    destruct chunk as [| b chunk']; [constructor |].
    rewrite trace_bind, yield_run. cbn [trace outcome fst snd app yielded].
    constructor; [discriminate |].
    destruct (closes_at W) as [n |]; [destruct (Nat.eqb n i) |];
      try constructor; apply IH.
Qed.

(** Reading stops at the first empty block: what follows it in the filter's
    output is never read. *)
Lemma read_loop_stops_at_empty (W : World) (out : list bytes)
    (more : list ReadResult) (i : nat) :
  closes_at W = None ->
  Forall (fun b => b <> []) out ->
  outcome (read_loop W (map ReadBytes out ++ ReadBytes [] :: more) i) = Ret tt
  /\ yielded (trace (read_loop W (map ReadBytes out ++ ReadBytes [] :: more) i))
     = out
  /\ count is_read
       (trace (read_loop W (map ReadBytes out ++ ReadBytes [] :: more) i))
     = S (length out).
Proof.
  intros Hc Hout. revert i.
  induction Hout as [| b out Hb Hout IH]; intros i.
  - repeat split.
  - cbn [map app read_loop]. rewrite bind_emit.
    destruct b as [| b0 b']; [congruence |].
    cbn [trace outcome fst snd]. rewrite outcome_bind, trace_bind, yield_run, Hc.
    cbn [outcome trace fst snd app yielded].
    destruct (IH (S i)) as (Ho & Hy & Hn). rewrite Ho, Hy.
    repeat split. unfold count in *. cbn [filter is_read length].
    rewrite Hn. reflexivity.
Qed.

(** X5. [read_audio] behaves as the reading loop written out in
    [generate_edge_audio]; it never yields an empty block; and when the
    consumer does not close, it yields the blocks that precede the first
    empty read, in order, makes one read more than it yields, and returns
    without reading what follows. *)
Theorem read_audio_until_empty (W : World) (stdout : list ReadResult)
    (i : nat) :
  read_audio W stdout i = read_loop W stdout i
  /\ Forall (fun b => b <> []) (yielded (trace (read_audio W stdout i)))
  /\ (forall out more,
         closes_at W = None ->
         Forall (fun b => b <> []) out ->
         stdout = map ReadBytes out ++ ReadBytes [] :: more ->
         outcome (read_audio W stdout i) = Ret tt
         /\ yielded (trace (read_audio W stdout i)) = out
         /\ count is_read (trace (read_audio W stdout i)) = S (length out)).
Proof.
  assert (Heq : forall reads j, read_audio W reads j = read_loop W reads j).
  { induction reads as [| r rest IH]; intros j; [reflexivity |].
    destruct r as [chunk | e]; [| reflexivity].
    cbn [read_audio read_loop]. destruct chunk; [reflexivity |].
    rewrite IH. reflexivity. }
  split; [apply Heq |]. rewrite Heq.
  split; [apply read_loop_nonempty |].
  intros out more Hc Hout ->. apply read_loop_stops_at_empty; assumption.
Qed.

Lemma read_audio_until_empty_witness :
  closes_at (sample_world true None) = None
  /\ Forall (fun b : bytes => b <> []) [filtered_a; filtered_b]
  /\ yielded (trace (read_audio (sample_world true None)
                       [ReadBytes filtered_a; ReadBytes filtered_b;
                        ReadBytes []; ReadBytes audio_a] 0))
     = [filtered_a; filtered_b].
Proof.
  assert (Hne : Forall (fun b : bytes => b <> []) [filtered_a; filtered_b])
    by (repeat constructor; discriminate).
  split; [reflexivity | split; [exact Hne |]].
  exact (proj1 (proj2 (proj2 (proj2
           (read_audio_until_empty (sample_world true None)
              [ReadBytes filtered_a; ReadBytes filtered_b;
               ReadBytes []; ReadBytes audio_a] 0))
           [filtered_a; filtered_b] [ReadBytes audio_a]
           eq_refl Hne eq_refl))).
Defined.

(** *** The generator, on every path *)

Lemma open_stream_plain (W : World) (text : string) (config : ModelConfig)
    (voice : string) (speed : option F64.float) :
  forallb is_plain (trace (open_stream W text config voice speed)) = true.
Proof.
  unfold open_stream.
  destruct (list_voices W) as [e | voices]; [reflexivity |].
  cbn [lift bind emit ret app].
  destruct (known_voice voices (real_voice config voice)); [| reflexivity].
  cbn [negb bind ret app].
  destruct (clamp_speed config speed) as [e | speed']; [reflexivity |].
  cbn [lift bind ret app].
  destruct (rate_of speed') as [e | rate]; [reflexivity |].
  cbn [lift bind ret emit app].
  destruct (Communicate W text (real_voice config voice) rate); reflexivity.
Qed.

Lemma direct_plain (W : World) (cs : list Chunk) (fin : option Exn) (i : nat) :
  forallb is_plain (trace (direct W cs fin i)) = true.
Proof.
  revert i. induction cs as [| c rest IH]; intros i.
  - cbn [direct]. rewrite bind_emit. destruct fin; reflexivity.
  - cbn [direct]. rewrite bind_emit. cbn [trace fst forallb is_plain].
    destruct (String.eqb (ctype c) "audio"); [| apply IH].
    rewrite trace_bind, yield_run. cbn [trace outcome fst snd app forallb].
    destruct (closes_at W) as [n |]; [destruct (Nat.eqb n i) |];
      try reflexivity; apply IH.
Qed.

Lemma loop_events_plain (l : list Event) :
  forallb is_loop_event l = true -> forallb is_plain l = true.
Proof.
  induction l as [| ev l IH]; [reflexivity |].
  cbn [forallb]. intros H. apply andb_prop in H as [Hev Hl].
  rewrite (IH Hl). destruct ev; try discriminate; reflexivity.
Qed.

Lemma count_plain (p : Event -> bool) (l : list Event) :
  (forall ev, is_plain ev = true -> p ev = false) ->
  forallb is_plain l = true -> count p l = 0%nat.
Proof.
  intros Hp Hl. apply count_none.
  induction l as [| ev l IH]; [reflexivity |].
  cbn [forallb existsb] in *. apply andb_prop in Hl as [Hev Hl].
  rewrite (Hp ev Hev), (IH Hl). reflexivity.
Qed.

Lemma plain_not_log ev : is_plain ev = true -> is_log ev = false.
Proof. destruct ev; cbn; congruence. Qed.
Lemma plain_not_spawn ev : is_plain ev = true -> is_spawn ev = false.
Proof. destruct ev; cbn; congruence. Qed.
Lemma plain_not_wait ev : is_plain ev = true -> is_wait ev = false.
Proof. destruct ev; cbn; congruence. Qed.
Lemma plain_not_kill ev : is_plain ev = true -> is_kill ev = false.
Proof. destruct ev; cbn; congruence. Qed.

(** The trace of the generator, path by path: plain events, at most one
    start of a process, at most one wait after it, and the handler's log
    line. *)
Lemma generate_trace_shape (str_float : F64.float -> string) (W : World)
    (text : string) (config : ModelConfig) (voice : string)
    (speed volume : option F64.float) :
  let run := generate_edge_audio str_float W text config voice speed volume in
  exists before spawned between waited after,
    trace run = before ++ spawned ++ between ++ waited ++ after
                  ++ error_log (outcome run)
    /\ forallb is_plain before = true
    /\ forallb is_plain between = true
    /\ forallb is_plain after = true
    /\ (spawned = []
        \/ spawned = [SubprocessExec (ffmpeg_cmd str_float volume)
                        PIPE PIPE PIPE])
    /\ (waited = [] \/ waited = [ProcWait] /\ spawned <> []).
Proof.
  intros run. subst run. unfold generate_edge_audio. rewrite handled_run.
  cbn [trace outcome fst snd].
  pose proof (open_stream_plain W text config voice speed) as Hopen.
  destruct (open_stream W text config voice speed) as [t [c | e |]].
  2, 3: exists t, [], [], [], []; cbn [bind trace outcome fst snd app] in *;
        rewrite ?app_nil_r; repeat split; auto.
  cbn [trace fst] in Hopen. cbn [bind].
  destruct (needs_filter volume).
  - unfold create_subprocess_exec.
    destruct (spawn W (ffmpeg_cmd str_float volume)) as [e | f].
    + exists t, [SubprocessExec (ffmpeg_cmd str_float volume) PIPE PIPE PIPE],
        [], [], [].
      cbn [bind emit lift raise app trace outcome fst snd].
      rewrite <- app_assoc. repeat split; auto.
    + cbn [bind emit lift ret app].
      fold (piped f). change (stdin (piped f)) with (Some (f_stdin f)).
      rewrite (filtered_run W (piped f) _ (f_stdout f) eq_refl).
      pose proof (loop_events_plain _ (read_loop_events W (f_stdout f) 0))
        as Hloop.
      rewrite cleanup_run. cbn [piped stdin wait trace outcome fst snd].
      destruct (read_loop W (f_stdout f) 0) as [tl ol].
      cbn [trace outcome fst snd] in *.
      set (wt := write_audio c (Some (f_stdin f))).
      assert (Hbetween : forallb is_plain (CreateTask wt :: tl ++ [StdinClose])
                         = true)
        by (cbn [forallb is_plain]; rewrite forallb_app, Hloop; reflexivity).
      assert (Hafter : forallb is_plain (after_wait (f_wait f)) = true)
        by (destruct (f_wait f); reflexivity).
      destruct ol as [[] | e |].
      * exists t, [SubprocessExec (ffmpeg_cmd str_float volume) PIPE PIPE PIPE],
          (CreateTask wt :: tl ++ [StdinClose]), [ProcWait],
          (after_wait (f_wait f)).
        split; [| split; [exact Hopen | split; [exact Hbetween |
                   split; [exact Hafter | split; [right; reflexivity |
                   right; split; [reflexivity | discriminate]]]]]].
        destruct (f_wait f) as [| | e0]; cbn [after_wait];
          try destruct (joined (outcome (await_task W wt))) as [[] | e' |];
          cbn [trace outcome fst snd app];
          rewrite <- ?app_assoc; cbn [app]; rewrite <- ?app_assoc; reflexivity.
      * exists t, [SubprocessExec (ffmpeg_cmd str_float volume) PIPE PIPE PIPE],
          (CreateTask wt :: tl ++ [StdinClose]), [ProcWait],
          (after_wait (f_wait f)).
        split; [| split; [exact Hopen | split; [exact Hbetween |
                   split; [exact Hafter | split; [right; reflexivity |
                   right; split; [reflexivity | discriminate]]]]]].
        destruct (f_wait f) as [| | e0]; cbn [after_wait];
          try destruct (joined (outcome (await_task W wt))) as [[] | e' |];
          cbn [trace outcome fst snd app];
          rewrite <- ?app_assoc; cbn [app]; rewrite <- ?app_assoc; reflexivity.
      * exists t, [SubprocessExec (ffmpeg_cmd str_float volume) PIPE PIPE PIPE],
          (CreateTask wt :: tl), [], [].
        cbn [trace outcome fst snd app error_log].
        rewrite <- ?app_assoc. cbn [app]. rewrite ?app_nil_r.
        repeat split; auto.
  - pose proof (direct_plain W (chunks c) (ending c) 0) as Hd.
    destruct (direct W (chunks c) (ending c) 0) as [td od].
    cbn [trace outcome fst snd] in *.
    exists t, [], td, [], []. cbn [app]. rewrite <- ?app_assoc.
    repeat split; auto.
Qed.

Lemma count_error_log (p : Event -> bool) (o : Outcome unit) :
  (forall m, p (LogError m) = false) -> count p (error_log o) = 0%nat.
Proof.
  intros Hp. destruct o as [[] | e |]; try reflexivity.
  cbn [error_log]. destruct (is_Exception e); [| reflexivity].
  unfold count. cbn [filter]. rewrite Hp. reflexivity.
Qed.

(** X6. The generator writes its error line exactly when it ends by raising
    an exception of class [Exception], and as its last effect; a run that
    returns, is closed by the consumer or is cancelled logs nothing. *)
Theorem generator_logs_iff_it_raises (str_float : F64.float -> string)
    (W : World) (text : string) (config : ModelConfig) (voice : string)
    (speed volume : option F64.float) :
  let run := generate_edge_audio str_float W text config voice speed volume in
  (exists body,
      trace run = body ++ error_log (outcome run)
      /\ count is_log body = 0%nat)
  /\ count is_log (trace run)
     = match outcome run with
       | Exc e => if is_Exception e then 1%nat else 0%nat
       | _ => 0%nat
       end.
Proof.
  intros run.
  destruct (generate_trace_shape str_float W text config voice speed volume)
    as (before & spawned & between & waited & after
        & Ht & Hb & Hm & Ha & Hs & Hw).
  fold run in Ht.
  assert (Hbody : count is_log (before ++ spawned ++ between ++ waited ++ after)
                  = 0%nat).
  { rewrite !count_app.
    rewrite (count_plain _ _ plain_not_log Hb),
      (count_plain _ _ plain_not_log Hm), (count_plain _ _ plain_not_log Ha).
    destruct Hs as [-> | ->], Hw as [-> | [-> _]]; reflexivity. }
  split.
  - exists (before ++ spawned ++ between ++ waited ++ after).
    split; [rewrite Ht, <- !app_assoc; reflexivity | exact Hbody].
  - rewrite Ht.
    replace (before ++ spawned ++ between ++ waited ++ after
               ++ error_log (outcome run))
      with ((before ++ spawned ++ between ++ waited ++ after)
              ++ error_log (outcome run))
      by (rewrite <- !app_assoc; reflexivity).
    rewrite count_app, Hbody.
    destruct (outcome run) as [[] | e |]; try reflexivity.
    cbn [error_log]. destruct (is_Exception e); reflexivity.
Qed.

(** X7. In every run the generator starts at most one process, waits only
    for a process it has started and at most once, and never kills one. *)
Theorem generator_process_discipline (str_float : F64.float -> string)
    (W : World) (text : string) (config : ModelConfig) (voice : string)
    (speed volume : option F64.float) :
  let run := generate_edge_audio str_float W text config voice speed volume in
  (count is_spawn (trace run) <= 1)%nat
  /\ (count is_wait (trace run) <= count is_spawn (trace run))%nat
  /\ count is_kill (trace run) = 0%nat.
Proof.
  intros run.
  destruct (generate_trace_shape str_float W text config voice speed volume)
    as (before & spawned & between & waited & after
        & Ht & Hb & Hm & Ha & Hs & Hw).
  fold run in Ht.
  assert (Hc : forall p,
             (forall ev, is_plain ev = true -> p ev = false) ->
             (forall m, p (LogError m) = false) ->
             count p (trace run) = (count p spawned + count p waited)%nat).
  { intros p Hp Hl. rewrite Ht, !count_app.
    rewrite (count_plain _ _ Hp Hb), (count_plain _ _ Hp Hm),
      (count_plain _ _ Hp Ha), (count_error_log _ _ Hl). lia. }
  rewrite (Hc is_spawn plain_not_spawn (fun _ => eq_refl)).
  rewrite (Hc is_wait plain_not_wait (fun _ => eq_refl)).
  rewrite (Hc is_kill plain_not_kill (fun _ => eq_refl)).
  split; [| split].
  - destruct Hs as [-> | ->], Hw as [-> | [-> _]]; cbn; lia.
  - destruct Hs as [-> | ->], Hw as [-> | [-> Hne]]; cbn; try lia.
    congruence.
  - destruct Hs as [-> | ->], Hw as [-> | [-> _]]; reflexivity.
Qed.

(** X8. When the filter cannot be started (the call raises, as it does when
    the executable is missing), the generator logs and re-raises: no writer
    task is created, nothing is read or yielded, and there is no cleanup to
    run. *)
Theorem spawn_failure_is_raised (str_float : F64.float -> string) (W : World)
    (text : string) (config : ModelConfig) (voice : string)
    (speed volume : option F64.float) (t : list Event) (communicate : Stream)
    (e : Exn) :
  open_stream W text config voice speed = (t, Ret communicate) ->
  needs_filter volume = true ->
  spawn W (ffmpeg_cmd str_float volume) = inl e ->
  generate_edge_audio str_float W text config voice speed volume
  = (t ++ SubprocessExec (ffmpeg_cmd str_float volume) PIPE PIPE PIPE
       :: error_log (Exc e),
     Exc e).
Proof.
  intros Ho Hn Hs. unfold generate_edge_audio.
  rewrite handled_run, Ho, Hn. unfold create_subprocess_exec. rewrite Hs.
  cbn [bind emit lift raise app trace outcome fst snd].
  rewrite <- app_assoc. reflexivity.
Qed.

Lemma spawn_failure_is_raised_witness :
  let W := missing_filter_world in
  open_stream W "hello" tts_1 "nova" (Some one)
  = ([ListVoices; NewCommunicate "hello" "zh-CN-YunxiNeural" "+0%"],
     Ret sample_stream)
  /\ needs_filter (Some two) = true
  /\ generate_edge_audio sample_str_float W "hello" tts_1 "nova"
       (Some one) (Some two)
     = ([ ListVoices; NewCommunicate "hello" "zh-CN-YunxiNeural" "+0%";
          SubprocessExec
            ["ffmpeg"; "-i"; "pipe:0"; "-af"; "volume=2.0"; "-f"; "mp3";
             "-loglevel"; "quiet"; "pipe:1"] PIPE PIPE PIPE;
          LogError "生成失败: No such file or directory: 'ffmpeg'" ],
        Exc (OtherException "FileNotFoundError"
               "No such file or directory: 'ffmpeg'")).
Proof.
  cbv zeta. split; [reflexivity | split; [reflexivity |]].
  exact (spawn_failure_is_raised sample_str_float missing_filter_world
           "hello" tts_1 "nova" (Some one) (Some two)
           [ListVoices; NewCommunicate "hello" "zh-CN-YunxiNeural" "+0%"]
           sample_stream
           (OtherException "FileNotFoundError"
              "No such file or directory: 'ffmpeg'")
           eq_refl eq_refl eq_refl).
Defined.

(** X9. A request whose [speed] is [null] passes the voice check and then
    fails with a [TypeError] when the rate is computed: the provider's
    stream object is never made and nothing is yielded. *)
Theorem null_speed_raises (str_float : F64.float -> string) (W : World)
    (text : string) (config : ModelConfig) (voice : string)
    (volume : option F64.float) (voices : list VoiceInfo) :
  list_voices W = inr voices ->
  known_voice voices (real_voice config voice) = true ->
  exists msg,
    generate_edge_audio str_float W text config voice None volume
    = ([ListVoices; LogError ("生成失败: " ++ msg)], Exc (TypeError msg)).
Proof.
  intros Hv Hk. unfold generate_edge_audio, open_stream, clamp_speed.
  rewrite Hv. cbn [lift bind emit ret app]. rewrite Hk.
  cbn [negb bind ret app].
  destruct (String.eqb (quality config) "enhanced");
    eexists; reflexivity.
Qed.

Lemma null_speed_raises_witness :
  list_voices (sample_world true None) = inr sample_catalogue
  /\ known_voice sample_catalogue (real_voice tts_1 "nova") = true
  /\ exists msg,
       generate_edge_audio sample_str_float (sample_world true None) "hello"
         tts_1 "nova" None (Some one)
       = ([ListVoices; LogError ("生成失败: " ++ msg)], Exc (TypeError msg)).
Proof.
  split; [reflexivity | split; [reflexivity |]].
  exact (null_speed_raises sample_str_float (sample_world true None) "hello"
           tts_1 "nova" (Some one) sample_catalogue eq_refl eq_refl).
Defined.

Lemma direct_to_end (W : World) (cs : list Chunk) (fin : option Exn) (i : nat) :
  closes_at W = None ->
  outcome (direct W cs fin i)
  = match fin with Some e => Exc e | None => Ret tt end.
Proof.
  intros Hc. revert i. induction cs as [| c rest IH]; intros i.
  - cbn [direct]. rewrite bind_emit. destruct fin; reflexivity.
  - cbn [direct]. rewrite bind_emit. cbn [outcome snd].
    destruct (String.eqb (ctype c) "audio"); [| apply IH].
    rewrite outcome_bind, yield_run, Hc. cbn [outcome snd]. apply IH.
Qed.

(** X10. On the direct path, when the provider's stream fails after some
    chunks, the audio chunks it delivered before have been yielded, in
    order, and the failure is then logged and re-raised to the consumer of
    the generator. *)
Theorem direct_path_failure_after_chunks (str_float : F64.float -> string)
    (W : World) (text : string) (config : ModelConfig) (voice : string)
    (speed volume : option F64.float) (t : list Event) (communicate : Stream)
    (e : Exn) :
  open_stream W text config voice speed = (t, Ret communicate) ->
  needs_filter volume = false ->
  closes_at W = None ->
  ending communicate = Some e ->
  is_Exception e = true ->
  let run := generate_edge_audio str_float W text config voice speed volume in
  outcome run = Exc e
  /\ yielded (trace run) = audio_data (chunks communicate)
  /\ exists body, trace run = body ++ [LogError ("生成失败: " ++ str_exn e)].
Proof.
  intros Ho Hn Hc He Hex run. subst run.
  rewrite (generate_direct_run str_float _ _ _ _ _ _ _ _ Ho Hn). cbv zeta.
  pose proof (direct_to_end W (chunks communicate) (ending communicate) 0 Hc)
    as Hd.
  rewrite He in Hd. rewrite He in *. rewrite Hd.
  cbn [trace outcome fst snd error_log]. rewrite Hex.
  split; [reflexivity |]. split.
  - destruct (open_stream_returns _ _ _ _ _ _ _ Ho)
      as (voices & speed' & rate & _ & _ & _ & _ & _ & ->).
    rewrite !yielded_app. cbn [yielded app]. rewrite app_nil_r.
    rewrite direct_yields, Hc. reflexivity.
  - exists (t ++ trace (direct W (chunks communicate) (Some e) 0)).
    rewrite <- app_assoc. reflexivity.
Qed.

Lemma direct_path_failure_after_chunks_witness :
  let W := failing_provider_world in
  open_stream W "hello" tts_1 "nova" (Some one)
  = ([ListVoices; NewCommunicate "hello" "zh-CN-YunxiNeural" "+0%"],
     Ret failing_stream)
  /\ needs_filter (Some one) = false
  /\ generate_edge_audio sample_str_float W "hello" tts_1 "nova"
       (Some one) (Some one)
     = ([ ListVoices; NewCommunicate "hello" "zh-CN-YunxiNeural" "+0%";
          StreamNext; Yield audio_a; StreamNext;
          LogError "生成失败: connection lost" ],
        Exc (OtherException "NoAudioReceived" "connection lost"))
  /\ yielded
       (trace (generate_edge_audio sample_str_float W "hello" tts_1 "nova"
                 (Some one) (Some one)))
     = [audio_a].
Proof.
  cbv zeta.
  split; [reflexivity | split; [reflexivity | split; [reflexivity |]]].
  exact (proj1 (proj2
           (direct_path_failure_after_chunks sample_str_float
              failing_provider_world "hello" tts_1
              "nova" (Some one) (Some one)
              [ListVoices; NewCommunicate "hello" "zh-CN-YunxiNeural" "+0%"]
              failing_stream
              (OtherException "NoAudioReceived" "connection lost")
              eq_refl eq_refl eq_refl eq_refl eq_refl))).
Defined.

(** X11. On the filtered path, whatever the writer task and the process do,
    a consumer that does not close receives the blocks the filter emitted
    before its first empty read, in the filter's order, and no empty
    block. *)
Theorem filtered_path_streams_filter_output (str_float : F64.float -> string)
    (W : World) (text : string) (config : ModelConfig) (voice : string)
    (speed volume : option F64.float) (t : list Event) (communicate : Stream)
    (f : Filter) (out : list bytes) (more : list ReadResult) :
  open_stream W text config voice speed = (t, Ret communicate) ->
  needs_filter volume = true ->
  spawn W (ffmpeg_cmd str_float volume) = inr f ->
  closes_at W = None ->
  f_stdout f = map ReadBytes out ++ ReadBytes [] :: more ->
  Forall (fun b => b <> []) out ->
  yielded (trace (generate_edge_audio str_float W text config voice speed
                    volume))
  = out.
Proof.
  intros Ho Hn Hs Hc Hout Hne.
  rewrite (generate_filtered_run str_float _ _ _ _ _ _ _ _ _ Ho Hn Hs).
  cbv zeta. cbn [trace fst].
  destruct (open_stream_returns _ _ _ _ _ _ _ Ho)
    as (voices & speed' & rate & _ & _ & _ & _ & _ & ->).
  rewrite !yielded_app, yielded_error_log. cbn [yielded app].
  rewrite app_nil_r.
  rewrite (filtered_run W (piped f) _ (f_stdout f) eq_refl), Hout.
  destruct (read_loop_stops_at_empty W out more 0 Hc Hne) as (Hl & Hy & _).
  rewrite Hl. cbn [trace fst]. rewrite yielded_app, Hy, cleanup_run.
  cbn [trace fst piped stdin wait].
  destruct (f_wait f); cbn [after_wait app yielded]; rewrite app_nil_r;
    reflexivity.
Qed.

Lemma filtered_path_streams_filter_output_witness :
  let W := sample_world false None in
  open_stream W "hello" tts_1 "nova" (Some one)
  = ([ListVoices; NewCommunicate "hello" "zh-CN-YunxiNeural" "+0%"],
     Ret sample_stream)
  /\ needs_filter (Some two) = true
  /\ f_stdout (sample_filter false)
     = map ReadBytes [filtered_a; filtered_b] ++ ReadBytes [] :: []
  /\ yielded (trace (generate_edge_audio sample_str_float W "hello" tts_1
                       "nova" (Some one) (Some two)))
     = [filtered_a; filtered_b].
Proof.
  cbv zeta.
  split; [reflexivity | split; [reflexivity | split; [reflexivity |]]].
  refine (filtered_path_streams_filter_output sample_str_float
            (sample_world false None) "hello" tts_1 "nova" (Some one)
            (Some two)
            [ListVoices; NewCommunicate "hello" "zh-CN-YunxiNeural" "+0%"]
            sample_stream (sample_filter false)
            [filtered_a; filtered_b] [] eq_refl eq_refl eq_refl eq_refl
            eq_refl _).
  repeat constructor; discriminate.
Defined.

(** *** The endpoints *)

Lemma lower_ascii_idempotent (c : ascii) :
  lower_ascii (lower_ascii c) = lower_ascii c.
Proof.
  destruct c as [[] [] [] [] [] [] [] []]; reflexivity.
Qed.

Lemma lower_idempotent (s : string) : lower (lower s) = lower s.
Proof.
  induction s as [| c s IH]; [reflexivity |].
  cbn [lower]. rewrite lower_ascii_idempotent, IH. reflexivity.
Qed.

Lemma create_speech_accepts (F : Faults) (request : TTSParameters)
    (config : ModelConfig) :
  at_logging F = None ->
  at_response F = None ->
  dict_get MODEL_CONFIG (model request) = Some config ->
  opt_str_in (response_format request) (allowed_formats config) = true ->
  dict_mem (voice_map config) (lower (voice request)) = true ->
  create_speech F request
  = inr (StreamingResponse
           {| g_text := input request; g_config := config;
              g_voice := lower (voice request); g_speed := speed request;
              g_volume := volume request |}
           ("audio/" ++ str_opt (response_format request))
           speech_headers).
Proof.
  intros Hl Hr Hm Hf Hv. unfold create_speech, create_speech_body.
  rewrite Hl, Hm. cbn [fault]. rewrite Hf, Hv, Hr. reflexivity.
Qed.

Lemma create_speech_accepted_inv (F : Faults) (request : TTSParameters) :
  accepted (create_speech F request) = true ->
  at_logging F = None
  /\ at_response F = None
  /\ exists config,
       dict_get MODEL_CONFIG (model request) = Some config
       /\ opt_str_in (response_format request) (allowed_formats config) = true
       /\ dict_mem (voice_map config) (lower (voice request)) = true.
Proof.
  unfold create_speech.
  destruct (create_speech_body F request) as [e | r] eqn:Hb.
  - destruct (is_HTTPException e); [discriminate |].
    destruct (is_Exception e); discriminate.
  - intros _. revert Hb. unfold create_speech_body.
    destruct (at_logging F) as [e |]; [discriminate |]. cbn [fault].
    destruct (dict_get MODEL_CONFIG (model request)) as [config |];
      [| discriminate].
    destruct (opt_str_in (response_format request) (allowed_formats config))
      eqn:Hfmt; [| discriminate].
    destruct (dict_mem (voice_map config) (lower (voice request))) eqn:Hv;
      [| discriminate].
    cbn [negb]. destruct (at_response F) as [e |]; [discriminate |].
    intros _. split; [reflexivity |]. split; [reflexivity |].
    exists config. repeat split; assumption.
Qed.

(** X12. The endpoint answers with a streaming response exactly when nothing
    fails inside it, the model is in the table, the response format is
    "mp3" and the lowercased voice is an alias of the model; the response
    then carries the generator called on the request's text, the model's
    entry, the lowercased voice, the speed and the volume, with the media
    type "audio/mp3" and the two fixed headers. *)
Theorem create_speech_accepts_iff (F : Faults) (request : TTSParameters) :
  (accepted (create_speech F request) = true
   <-> at_logging F = None
       /\ at_response F = None
       /\ response_format request = Some "mp3"
       /\ exists config,
            dict_get MODEL_CONFIG (model request) = Some config
            /\ dict_mem (voice_map config) (lower (voice request)) = true)
  /\ (accepted (create_speech F request) = true ->
      exists config,
        dict_get MODEL_CONFIG (model request) = Some config
        /\ create_speech F request
           = inr (StreamingResponse
                    {| g_text := input request; g_config := config;
                       g_voice := lower (voice request);
                       g_speed := speed request;
                       g_volume := volume request |}
                    "audio/mp3" speech_headers)).
Proof.
  split; [split |].
  - intros Ha.
    destruct (create_speech_accepted_inv F request Ha)
      as (Hl & Hr & config & Hm & Hf & Hv).
    split; [exact Hl |]. split; [exact Hr |].
    split; [exact (allowed_format_is_mp3 _ _ _ Hm Hf) |].
    exists config. split; assumption.
  - intros (Hl & Hr & Hfmt & config & Hm & Hv).
    assert (Hf : opt_str_in (response_format request) (allowed_formats config)
                 = true).
    { rewrite Hfmt. revert Hm. unfold MODEL_CONFIG. cbn [dict_get].
      destruct (String.eqb (model request) "tts-1");
        [intros [= <-]; reflexivity |].
      destruct (String.eqb (model request) "tts-1-hd");
        [intros [= <-]; reflexivity | discriminate]. }
    rewrite (create_speech_accepts F request config Hl Hr Hm Hf Hv).
    reflexivity.
  - intros Ha.
    destruct (create_speech_accepted_inv F request Ha)
      as (Hl & Hr & config & Hm & Hf & Hv).
    exists config. split; [exact Hm |].
    rewrite (create_speech_accepts F request config Hl Hr Hm Hf Hv).
    rewrite (allowed_format_is_mp3 _ _ _ Hm Hf). reflexivity.
Qed.

Lemma create_speech_accepts_iff_witness :
  accepted (create_speech no_faults
              (sample_request "tts-1-hd" "Echo" (Some "mp3") None None))
  = true
  /\ exists config,
       dict_get MODEL_CONFIG "tts-1-hd" = Some config
       /\ create_speech no_faults
            (sample_request "tts-1-hd" "Echo" (Some "mp3") None None)
          = inr (StreamingResponse
                   {| g_text := "hello"; g_config := config;
                      g_voice := "echo"; g_speed := None; g_volume := None |}
                   "audio/mp3" speech_headers).
Proof.
  split; [reflexivity |].
  exact (proj2 (create_speech_accepts_iff no_faults
                  (sample_request "tts-1-hd" "Echo" (Some "mp3") None None))
               eq_refl).
Defined.

(** X13. The endpoint reads the voice up to the case of its letters: two
    requests that differ only in the voice, with the same lowercased voice,
    are both accepted or both refused, and when accepted they get the same
    response. *)
Theorem create_speech_ignores_voice_case (F : Faults) (request : TTSParameters)
    (v : string) :
  lower v = lower (voice request) ->
  accepted (create_speech F (set_voice request v))
  = accepted (create_speech F request)
  /\ (accepted (create_speech F request) = true ->
      create_speech F (set_voice request v) = create_speech F request).
Proof.
  intros Hv.
  assert (Hfwd : forall r1 r2,
             model r1 = model r2 -> input r1 = input r2 ->
             response_format r1 = response_format r2 ->
             speed r1 = speed r2 -> volume r1 = volume r2 ->
             lower (voice r1) = lower (voice r2) ->
             accepted (create_speech F r1) = true ->
             create_speech F r2 = create_speech F r1).
  { intros r1 r2 Hm Hi Hf Hs Hvol Hlow Ha.
    destruct (create_speech_accepted_inv F r1 Ha)
      as (Hl & Hr & config & Hc & Hfmt & Hmem).
    rewrite (create_speech_accepts F r1 config Hl Hr Hc Hfmt Hmem).
    rewrite (create_speech_accepts F r2 config Hl Hr);
      [ rewrite Hi, Hf, Hs, Hvol, Hlow; reflexivity
      | rewrite <- Hm; exact Hc
      | rewrite <- Hf; exact Hfmt
      | rewrite <- Hlow; exact Hmem ]. }
  assert (H12 : accepted (create_speech F request) = true ->
                create_speech F (set_voice request v) = create_speech F request).
  { intros Ha. apply Hfwd; try reflexivity; [symmetry; exact Hv | exact Ha]. }
  split; [| exact H12].
  destruct (accepted (create_speech F request)) eqn:Ha.
  - rewrite (H12 eq_refl). exact Ha.
  - destruct (accepted (create_speech F (set_voice request v))) eqn:Ha';
      [| reflexivity].
    pose proof (Hfwd (set_voice request v) request eq_refl eq_refl eq_refl
                  eq_refl eq_refl Hv Ha') as E.
    rewrite E, Ha' in Ha. discriminate.
Qed.

Lemma create_speech_ignores_voice_case_witness :
  lower "NOVA" = lower "nova"
  /\ create_speech no_faults
       (set_voice (sample_request "tts-1" "nova" (Some "mp3") None None) "NOVA")
     = create_speech no_faults
         (sample_request "tts-1" "nova" (Some "mp3") None None).
Proof.
  split; [reflexivity |].
  exact (proj2 (create_speech_ignores_voice_case no_faults
                  (sample_request "tts-1" "nova" (Some "mp3") None None)
                  "NOVA" eq_refl) eq_refl).
Defined.

(** X14. For an accepted request the generator's lookup of the voice never
    falls back on the alias itself: the voice it validates and hands to the
    provider is the table's entry for the lowercased alias, one of the six
    provider voices. *)
Theorem accepted_voice_is_mapped (F : Faults) (request : TTSParameters)
    (g : GeneratorCall) (mt : string) (hs : list (string * string)) :
  create_speech F request = inr (StreamingResponse g mt hs) ->
  dict_get (voice_map (g_config g)) (lower (voice request))
  = Some (real_voice (g_config g) (g_voice g))
  /\ In (real_voice (g_config g) (g_voice g))
        [ "en-US-GuyNeural"; "en-US-JennyNeural"; "zh-CN-YunxiNeural";
          "en-US-AriaNeural"; "en-US-DavisNeural"; "zh-CN-YunjianNeural" ].
Proof.
  intros Hcs.
  destruct (streaming_response_inv _ _ _ _ _ Hcs)
    as (config & Hm & _ & Hv & -> & _).
  cbn [g_config g_voice]. unfold real_voice. rewrite lower_idempotent.
  unfold dict_mem in Hv.
  destruct (dict_get (voice_map config) (lower (voice request)))
    as [name |] eqn:Hget; [| discriminate].
  split; [reflexivity |].
  revert Hm Hget. unfold MODEL_CONFIG. cbn [dict_get].
  destruct (String.eqb (model request) "tts-1").
  - intros [= <-]. cbn [voice_map dict_get].
    repeat (destruct (String.eqb (lower (voice request)) _);
            [intros [= <-]; cbn; tauto |]).
    discriminate.
  - destruct (String.eqb (model request) "tts-1-hd"); [| discriminate].
    intros [= <-]. cbn [voice_map dict_get].
    repeat (destruct (String.eqb (lower (voice request)) _);
            [intros [= <-]; cbn; tauto |]).
    discriminate.
Qed.

Lemma accepted_voice_is_mapped_witness :
  create_speech no_faults
    (sample_request "tts-1-hd" "Nova" (Some "mp3") None None)
  = inr (StreamingResponse
           {| g_text := "hello";
              g_config :=
                {| quality := "enhanced"; allowed_formats := ["mp3"];
                   voice_map := [ ("alloy", "en-US-AriaNeural");
                                  ("echo", "en-US-DavisNeural");
                                  ("nova", "zh-CN-YunjianNeural") ] |};
              g_voice := "nova"; g_speed := None; g_volume := None |}
           "audio/mp3" speech_headers)
  /\ dict_get [ ("alloy", "en-US-AriaNeural"); ("echo", "en-US-DavisNeural");
                ("nova", "zh-CN-YunjianNeural") ] "nova"
     = Some "zh-CN-YunjianNeural".
Proof.
  split; [reflexivity |].
  exact (proj1 (accepted_voice_is_mapped no_faults
                  (sample_request "tts-1-hd" "Nova" (Some "mp3") None None)
                  _ _ _ eq_refl)).
Defined.

(** X15. The list served at [/v1/voices] agrees with the model table: every
    voice it lists is accepted, for each model among its capacities, by the
    speech endpoint (in the format "mp3", whatever the text, speed and
    volume), and every alias a model of the table accepts is listed with
    that model among its capacities. *)
Theorem voices_endpoint_matches_table :
  (forall entry m request,
      In entry voices_endpoint ->
      In m (capacities entry) ->
      model request = m ->
      lower (voice request) = voice_id entry ->
      response_format request = Some "mp3" ->
      accepted (create_speech no_faults request) = true)
  /\ (forall m config alias,
         dict_get MODEL_CONFIG m = Some config ->
         dict_mem (voice_map config) alias = true ->
         exists entry,
           In entry voices_endpoint
           /\ voice_id entry = alias
           /\ In m (capacities entry)).
Proof.
  split.
  - intros entry m request He Hm Hmodel Hvoice Hfmt.
    assert (Hacc : forall config,
               dict_get MODEL_CONFIG (model request) = Some config ->
               opt_str_in (response_format request) (allowed_formats config)
               = true ->
               dict_mem (voice_map config) (lower (voice request)) = true ->
               accepted (create_speech no_faults request) = true).
    { intros config H1 H2 H3.
      rewrite (create_speech_accepts no_faults request config
                 eq_refl eq_refl H1 H2 H3).
      reflexivity. }
    cbn [voices_endpoint In] in He.
    destruct He as [<- | [<- | [<- | []]]]; cbn [capacities In] in Hm;
      destruct Hm as [Hm | [Hm | []]]; rewrite <- Hm in Hmodel;
      cbn [voice_id] in Hvoice;
      [ apply (Hacc tts_1) | apply (Hacc tts_1_hd)
      | apply (Hacc tts_1) | apply (Hacc tts_1_hd)
      | apply (Hacc tts_1) | apply (Hacc tts_1_hd) ];
      rewrite ?Hmodel, ?Hvoice, ?Hfmt; reflexivity.
  - intros m config alias Hm Hv.
    assert (Hmod : m = "tts-1" \/ m = "tts-1-hd").
    { revert Hm. unfold MODEL_CONFIG. cbn [dict_get].
      destruct (String.eqb_spec m "tts-1"); [left; assumption |].
      destruct (String.eqb_spec m "tts-1-hd"); [right; assumption |].
      discriminate. }
    assert (Hal : alias = "alloy" \/ alias = "echo" \/ alias = "nova").
    { revert Hv. unfold dict_mem.
      destruct Hmod as [-> | ->]; cbn in Hm; injection Hm as <-;
        cbn [voice_map dict_get];
        destruct (String.eqb_spec alias "alloy"); auto;
        destruct (String.eqb_spec alias "echo"); auto;
        destruct (String.eqb_spec alias "nova"); auto; discriminate. }
    destruct Hal as [-> | [-> | ->]].
    + exists {| voice_id := "alloy"; voice_name := "Alloy (EdgeTTS)";
                capacities := ["tts-1"; "tts-1-hd"] |}.
      split; [cbn; tauto |]. split; [reflexivity |].
      destruct Hmod as [-> | ->]; cbn; tauto.
    + exists {| voice_id := "echo"; voice_name := "Echo (EdgeTTS)";
                capacities := ["tts-1"; "tts-1-hd"] |}.
      split; [cbn; tauto |]. split; [reflexivity |].
      destruct Hmod as [-> | ->]; cbn; tauto.
    + exists {| voice_id := "nova"; voice_name := "Nova (EdgeTTS)";
                capacities := ["tts-1"; "tts-1-hd"] |}.
      split; [cbn; tauto |]. split; [reflexivity |].
      destruct Hmod as [-> | ->]; cbn; tauto.
Qed.

Lemma voices_endpoint_matches_table_witness :
  In {| voice_id := "echo"; voice_name := "Echo (EdgeTTS)";
        capacities := ["tts-1"; "tts-1-hd"] |} voices_endpoint
  /\ accepted (create_speech no_faults
                 (sample_request "tts-1-hd" "ECHO" (Some "mp3")
                    (Some (F64.lit 5 10)) None))
     = true.
Proof.
  assert (Hin : In {| voice_id := "echo"; voice_name := "Echo (EdgeTTS)";
                      capacities := ["tts-1"; "tts-1-hd"] |} voices_endpoint)
    by (cbn; tauto).
  split; [exact Hin |].
  refine (proj1 voices_endpoint_matches_table _ "tts-1-hd"
            (sample_request "tts-1-hd" "ECHO" (Some "mp3")
               (Some (F64.lit 5 10)) None)
            Hin _ eq_refl eq_refl eq_refl).
  cbn; tauto.
Defined.

(** *** The clamp of the speed *)

Lemma SFcompare_finite_eq (sx : bool) (mx : positive) (ex : Z) (y : spec_float) :
  SFcompare (S754_finite sx mx ex) y = Some Eq -> y = S754_finite sx mx ex.
Proof.
  destruct y as [sy | sy | | sy my ey]; cbn [SFcompare].
  - destruct sx; discriminate.
  - destruct sy; discriminate.
  - discriminate.
  - destruct sx, sy; try discriminate;
      destruct (Z.compare_spec ex ey) as [-> | |]; try discriminate;
      intros [= H].
    + apply (f_equal CompOpp) in H. rewrite CompOpp_involutive in H.
      cbn [CompOpp] in H. apply Pos.compare_eq in H. subst. reflexivity.
    + apply Pos.compare_eq in H. subst. reflexivity.
Qed.

Lemma ltb_trans (x y z : F64.float) :
  F64.ltb x y = true -> F64.ltb y z = true -> F64.ltb x z = true.
Proof.
  unfold F64.ltb, SFltb.
  destruct x as [sx | sx | | sx mx ex], y as [sy | sy | | sy my ey],
    z as [sz | sz | | sz mz ez]; cbn [SFcompare];
    try discriminate;
    try (destruct sx; discriminate); try (destruct sy; discriminate);
    try (destruct sz; discriminate);
    try (destruct sx, sy; discriminate); try (destruct sy, sz; discriminate);
    try (destruct sx, sy, sz; (discriminate || reflexivity)).
  destruct sx, sy, sz; try discriminate; try reflexivity;
    change (PosDef.Pos.compare_cont Eq) with Pos.compare;
    destruct (Z.compare_spec ex ey), (Z.compare_spec ey ez),
      (Z.compare_spec ex ez); try discriminate; try reflexivity; try lia;
    subst;
    destruct (Pos.compare_spec mx my), (Pos.compare_spec my mz),
      (Pos.compare_spec mx mz); cbn [CompOpp]; try discriminate;
    try reflexivity; try lia.
Qed.

Lemma leb_not_ltb (x y : F64.float) :
  F64.leb x y = true -> F64.ltb y x = false.
Proof.
  unfold F64.leb, F64.ltb, SFleb, SFltb. rewrite (SFcompare_antisym x y).
  destruct (SFcompare x y) as [[| |] |]; cbn; congruence.
Qed.

(** X16. For a model of quality "enhanced" the speed kept for the rate is
    never outside [0.8, 1.5]: a speed below 0.8 or above 1.5 is replaced by
    the bound, and a speed within the bounds is kept as it is.  For any
    other quality the speed is not touched. *)
Theorem enhanced_speed_is_clamped (config : ModelConfig) (s : F64.float) :
  s <> S754_nan ->
  (quality config = "enhanced" ->
   exists s',
     clamp_speed config (Some s) = inr (Some s')
     /\ F64.leb (F64.lit 8 10) s' = true
     /\ F64.leb s' (F64.lit 15 10) = true
     /\ (F64.ltb s (F64.lit 8 10) = true -> s' = F64.lit 8 10)
     /\ (F64.ltb (F64.lit 15 10) s = true -> s' = F64.lit 15 10)
     /\ (F64.leb (F64.lit 8 10) s = true ->
         F64.leb s (F64.lit 15 10) = true -> s' = s))
  /\ (String.eqb (quality config) "enhanced" = false ->
      clamp_speed config (Some s) = inr (Some s)).
Proof.
  intros Hs.
  assert (E8 : F64.lit 8 10 = S754_finite false 7205759403792794 (-53))
    by (vm_compute; reflexivity).
  assert (E15 : F64.lit 15 10 = S754_finite false 6755399441055744 (-52))
    by (vm_compute; reflexivity).
  split.
  - intros Hq.
    destruct (clamp_speed_bounds config s Hq Hs) as (s' & Hc & Hlo & Hhi).
    exists s'. split; [exact Hc |]. split; [exact Hlo |]. split; [exact Hhi |].
    assert (Hs' : s' = F64.max (F64.lit 8 10) (F64.min s (F64.lit 15 10))).
    { revert Hc. unfold clamp_speed. rewrite Hq.
      change ("enhanced" =? "enhanced")%string with true. cbv iota.
      generalize (F64.max (F64.lit 8 10) (F64.min s (F64.lit 15 10))).
      intros f [= <-]. reflexivity. }
    rewrite Hs'. clear Hs' Hc Hlo Hhi. rewrite E8, E15.
    unfold F64.max, F64.min.
    split; [| split].
    + intros Hlt.
      assert (H15 : F64.ltb (S754_finite false 6755399441055744 (-52)) s
                    = false).
      { destruct (F64.ltb (S754_finite false 6755399441055744 (-52)) s)
          eqn:E; [| reflexivity].
        pose proof (ltb_trans _ _ _ E Hlt) as Habs.
        vm_compute in Habs. discriminate Habs. }
      rewrite H15. rewrite (leb_not_ltb _ _ (ltb_leb _ _ Hlt)). reflexivity.
    + intros Hgt. rewrite Hgt. reflexivity.
    + intros Hge Hle. rewrite (leb_not_ltb _ _ Hle).
      destruct (F64.ltb (S754_finite false 7205759403792794 (-53)) s) eqn:E;
        [reflexivity |].
      revert Hge E. unfold F64.leb, F64.ltb, SFleb, SFltb.
      destruct (SFcompare (S754_finite false 7205759403792794 (-53)) s)
        as [[| |] |] eqn:Hcmp; try discriminate.
      intros _ _. symmetry. exact (SFcompare_finite_eq _ _ _ _ Hcmp).
  - intros Hq. unfold clamp_speed. rewrite Hq. reflexivity.
Qed.

Lemma enhanced_speed_is_clamped_witness :
  F64.lit 5 10 <> S754_nan
  /\ quality tts_1_hd = "enhanced"
  /\ F64.ltb (F64.lit 5 10) (F64.lit 8 10) = true
  /\ clamp_speed tts_1_hd (Some (F64.lit 5 10)) = inr (Some (F64.lit 8 10)).
Proof.
  assert (Hn : F64.lit 5 10 <> S754_nan) by (vm_compute; discriminate).
  split; [exact Hn | split; [reflexivity | split; [reflexivity |]]].
  destruct (proj1 (enhanced_speed_is_clamped tts_1_hd (F64.lit 5 10) Hn)
              eq_refl) as (s' & Hc & _ & _ & Hlow & _).
  rewrite Hc. f_equal. f_equal. apply Hlow. vm_compute. reflexivity.
Defined.

(** *** Failures before the stream, and a null volume *)

(** X17. Whatever fails before the provider's stream object exists (the
    catalogue request, the voice check, the computation of the rate, the
    provider refusing the request), the generator ends with that exception,
    logged if it is of class [Exception]: it starts no process and yields
    nothing. *)
Theorem failure_before_stream (str_float : F64.float -> string) (W : World)
    (text : string) (config : ModelConfig) (voice : string)
    (speed volume : option F64.float) (e : Exn) :
  outcome (open_stream W text config voice speed) = Exc e ->
  let run := generate_edge_audio str_float W text config voice speed volume in
  run = (trace (open_stream W text config voice speed) ++ error_log (Exc e),
         Exc e)
  /\ yielded (trace run) = []
  /\ count is_spawn (trace run) = 0%nat.
Proof.
  intros Ho run.
  assert (Hrun : run = (trace (open_stream W text config voice speed)
                          ++ error_log (Exc e), Exc e)).
  { subst run. unfold generate_edge_audio. rewrite handled_run.
    rewrite (surjective_run (open_stream W text config voice speed)), Ho.
    reflexivity. }
  split; [exact Hrun |]. rewrite Hrun. cbn [trace fst]. split.
  - rewrite yielded_app, open_stream_yields_nothing, yielded_error_log.
    reflexivity.
  - apply count_none.
    rewrite existsb_app, open_stream_no_spawn, error_log_no_spawn. reflexivity.
Qed.

Lemma failure_before_stream_witness :
  outcome (open_stream strict_provider_world "hello" tts_1 "nova"
             (Some (F64.lit 5 10)))
  = Exc (ValueError "Invalid rate '+-50%'.")
  /\ generate_edge_audio sample_str_float strict_provider_world "hello" tts_1
       "nova" (Some (F64.lit 5 10)) (Some one)
     = ([ ListVoices; NewCommunicate "hello" "zh-CN-YunxiNeural" "+-50%";
          LogError "生成失败: Invalid rate '+-50%'." ],
        Exc (ValueError "Invalid rate '+-50%'.")).
Proof.
  assert (Ho : outcome (open_stream strict_provider_world "hello" tts_1 "nova"
                          (Some (F64.lit 5 10)))
               = Exc (ValueError "Invalid rate '+-50%'."))
    by (vm_compute; reflexivity).
  split; [exact Ho |].
  rewrite (proj1 (failure_before_stream sample_str_float strict_provider_world
                    "hello" tts_1 "nova" (Some (F64.lit 5 10)) (Some one)
                    _ Ho)).
  vm_compute. reflexivity.
Defined.

(** X18. A request whose [volume] is [null] is not served on the direct
    path: the filter is started, with the filter expression [volume=None]
    whatever the rendering of floats. *)
Theorem null_volume_starts_filter (str_float : F64.float -> string) (W : World)
    (text : string) (config : ModelConfig) (voice : string)
    (speed : option F64.float) (t : list Event) (communicate : Stream) :
  open_stream W text config voice speed = (t, Ret communicate) ->
  exists rest,
    trace (generate_edge_audio str_float W text config voice speed None)
    = t ++ SubprocessExec
             [ "ffmpeg"; "-i"; "pipe:0"; "-af"; "volume=None"; "-f"; "mp3";
               "-loglevel"; "quiet"; "pipe:1" ]
             PIPE PIPE PIPE :: rest.
Proof.
  intros Ho. unfold generate_edge_audio.
  rewrite handled_run, Ho. cbn [needs_filter bind trace fst].
  unfold create_subprocess_exec.
  destruct (spawn W (ffmpeg_cmd str_float None)) as [e | f].
  - cbn [bind emit lift raise app trace outcome fst snd].
    eexists. rewrite <- app_assoc. reflexivity.
  - cbn [bind emit lift ret app].
    match goal with
    | |- context [filtered ?w ?p ?k] => destruct (filtered w p k) as [t' o]
    end.
    cbn [trace outcome fst snd]. eexists.
    rewrite <- !app_assoc. reflexivity.
Qed.

Lemma null_volume_starts_filter_witness :
  open_stream (sample_world true None) "hello" tts_1 "nova" (Some one)
  = ([ListVoices; NewCommunicate "hello" "zh-CN-YunxiNeural" "+0%"],
     Ret sample_stream)
  /\ exists rest,
       trace (generate_edge_audio sample_str_float (sample_world true None)
                "hello" tts_1 "nova" (Some one) None)
       = [ListVoices; NewCommunicate "hello" "zh-CN-YunxiNeural" "+0%"]
           ++ SubprocessExec
                [ "ffmpeg"; "-i"; "pipe:0"; "-af"; "volume=None"; "-f"; "mp3";
                  "-loglevel"; "quiet"; "pipe:1" ]
                PIPE PIPE PIPE :: rest.
Proof.
  split; [reflexivity |].
  exact (null_volume_starts_filter sample_str_float (sample_world true None)
           "hello" tts_1 "nova" (Some one)
           [ListVoices; NewCommunicate "hello" "zh-CN-YunxiNeural" "+0%"]
           sample_stream eq_refl).
Defined.
